(** * Majority-judgment election backend: request gating and election lookup

    A shallow embedding of the views of [election/views.py] (Django REST
    views over the [Election], [Token] and [Vote] tables, with the
    invitation mails), of [app/crud.py] (SQLAlchemy lookup by id or ref and
    election creation) and of the user lookup of the acceptance tests'
    [tools_dbal.py], with the properties of their error paths and of what
    they keep in the tables. *)

From stdpp Require Import gmap strings list.

Local Open Scope string_scope.
Local Open Scope Z_scope.

(** ** election/views.py *)

Module Views.

(** Error codes, as the module defines them. *)
Definition UNKNOWN_ELECTION_ERROR : string := "E1: Unknown election".
Definition ONGOING_ELECTION_ERROR : string := "E2: Ongoing election".
Definition NO_VOTE_ERROR : string := "E3: No recorded vote".
Definition ELECTION_NOT_STARTED_ERROR : string := "E4: Election not started".
Definition ELECTION_FINISHED_ERROR : string := "E5: Election finished".
Definition INVITATION_ONLY_ERROR : string :=
  "E6: Election on invitation only, please provide token".
Definition UNKNOWN_TOKEN_ERROR : string := "E7: Wrong token".
Definition USED_TOKEN_ERROR : string := "E8: Token already used".
Definition WRONG_ELECTION_ERROR : string :=
  "E9: Parameters for the election are incorrect".

(** The [rest_framework.status] codes the views use. *)
Definition HTTP_200_OK : Z := 200.
Definition HTTP_201_CREATED : Z := 201.
Definition HTTP_400_BAD_REQUEST : Z := 400.
Definition HTTP_401_UNAUTHORIZED : Z := 401.

(** A grade is always an int. *)
Definition Grade : Type := Z.

(** *** The tables

    [Election] and [Token] have a character primary key, so each table is a
    finite map from that key to the other columns of the row; an ORM object
    is a key together with its row.  [Vote] rows are only ever appended and
    filtered by election. *)

Record Election := {
  candidates : list string;
  num_grades : Z;
  start_at : Z;
  finish_at : Z;
  on_invitation_only : bool;
  restrict_results : bool
}.

Record Token := {
  email : string;
  used : bool;
  token_election : string
}.

Record Vote := {
  vote_election : string;
  grades_by_candidate : list Grade
}.

Record Store := {
  elections : gmap string Election;
  tokens : gmap string Token;
  votes : list Vote
}.

(** [token_object.used = True] *)
Definition set_used (t : Token) : Token :=
  {| email := email t; used := true; token_election := token_election t |}.

(** One entry of the result listing: [serializers.Candidate(name, idx,
    merit_profile, grade)]. *)
Record Candidate := {
  name : string;
  idx : Z;
  profile : list (Grade * Z);
  grade : Grade
}.

(** *** Responses *)

Inductive Payload :=
| Message (msg : string)
| ElectionView (e : Election)
| CandidateList (cs : list Candidate)
| NoContent.

Record Response := Resp { data : Payload; status : Z }.

(** *** Effects of a handler

    A handler talks to storage one ORM call at a time, and the result view
    also calls the [majority_judgment] library.  Each such call is an
    operation; a handler is a tree of operations ending in a response. *)

Inductive op : Type -> Type :=
| ElectionGet (pk : string) : op (option Election)
    (* Election.objects.get(id=pk); None is Election.DoesNotExist *)
| TokenGet (election_pk token : string) : op (option Token)
    (* Token.objects.get(election=election, id=token) *)
| TokenSave (token : string) (t : Token) : op unit
    (* token_object.save() *)
| VoteCreate (v : Vote) : op bool
    (* self.perform_create(serializer); false is IntegrityError *)
| VoteFilter (election_pk : string) : op (list Vote)
    (* Vote.objects.filter(election=election) *)
| Tally (e : Election) (vs : list (list Grade)) : op (list Candidate).
    (* merit profiles, majority values, sort and the Candidate rows *)

Inductive eff (A : Type) : Type :=
| Ret (a : A)
| Do {X : Type} (o : op X) (k : X -> eff A).

Arguments Ret {A} a.
Arguments Do {A X} o k.

Notation "'let!' x ':=' o 'in' k" := (Do o (fun x => k))
  (at level 10, x pattern, o at level 100, k at level 200).

(** The validated data of a vote request, [serializer.validated_data]
    after [is_valid]: the election object (key and row), the token
    identifier when the request carries one, and the grades. *)
Record VoteData := {
  vd_election_pk : string;
  vd_election : Election;
  vd_token : option string;
  vd_grades : list Grade
}.

(** In the handlers [now] is the value of [round(time())]. *)

Module ElectionDetailsAPIView.

Definition get (now : Z) (pk : string) : eff Response :=
  let! found := ElectionGet pk in
  match found with
  | None => Ret (Resp (Message UNKNOWN_ELECTION_ERROR) HTTP_400_BAD_REQUEST)
  | Some election =>
      if now <? start_at election then
        Ret (Resp (Message ELECTION_NOT_STARTED_ERROR) HTTP_401_UNAUTHORIZED)
      else
        Ret (Resp (ElectionView election) HTTP_200_OK)
  end.

End ElectionDetailsAPIView.

Module VoteAPIView.

(** The row that [perform_create] inserts. *)
Definition vote_of (vd : VoteData) : Vote :=
  {| vote_election := vd_election_pk vd; grades_by_candidate := vd_grades vd |}.

Definition create (now : Z) (vd : VoteData) : eff Response :=
  let election := vd_election vd in
  (* lines 155-165, reached from both branches of the invitation test *)
  let persist :=
    let! ok := VoteCreate (vote_of vd) in
    if ok : bool then Ret (Resp NoContent HTTP_201_CREATED)
    else Ret (Resp (Message WRONG_ELECTION_ERROR) HTTP_400_BAD_REQUEST) in
  if now >=? finish_at election then
    Ret (Resp (Message ELECTION_FINISHED_ERROR) HTTP_401_UNAUTHORIZED)
  else if on_invitation_only election then
    match vd_token vd with
    | None => Ret (Resp (Message INVITATION_ONLY_ERROR) HTTP_400_BAD_REQUEST)
    | Some token =>
        let! found := TokenGet (vd_election_pk vd) token in
        match found with
        | None => Ret (Resp (Message UNKNOWN_TOKEN_ERROR) HTTP_400_BAD_REQUEST)
        | Some token_object =>
            if used token_object then
              Ret (Resp (Message USED_TOKEN_ERROR) HTTP_400_BAD_REQUEST)
            else
              let! _ := TokenSave token (set_used token_object) in
              persist
        end
    end
  else persist.

End VoteAPIView.

Module ResultAPIView.

(** The lookup's [except IntegrityError] handler is not modelled: reading a
    row by primary key violates no constraint.  Lines 202-222 (profiles,
    majority values, sort, serialisation) are the single [Tally]
    operation. *)
Definition get (now : Z) (pk : string) : eff Response :=
  let! found := ElectionGet pk in
  match found with
  | None => Ret (Resp (Message UNKNOWN_ELECTION_ERROR) HTTP_400_BAD_REQUEST)
  | Some election =>
      if restrict_results election && (now <? finish_at election) then
        Ret (Resp (Message ONGOING_ELECTION_ERROR) HTTP_400_BAD_REQUEST)
      else
        let! votes := VoteFilter pk in
        if (length votes =? 0)%nat then
          Ret (Resp (Message NO_VOTE_ERROR) HTTP_400_BAD_REQUEST)
        else
          let! ranked := Tally election (grades_by_candidate <$> votes) in
          Ret (Resp (CandidateList ranked) HTTP_200_OK)
  end.

End ResultAPIView.

(** *** Running a handler against the store *)

(** What a run leaves in the log, one entry per operation. *)
Inductive Event :=
| ReadElection (pk : string)
| ReadToken (election_pk token : string)
| WriteToken (token : string) (t : Token)
| WriteVote (v : Vote)
| RejectVote (v : Vote)
| ReadVotes (election_pk : string)
| Ranked (e : Election) (vs : list (list Grade)).

Definition event {X} (o : op X) : X -> Event :=
  match o in op X return X -> Event with
  | ElectionGet pk => fun _ => ReadElection pk
  | TokenGet epk token => fun _ => ReadToken epk token
  | TokenSave token t => fun _ => WriteToken token t
  | VoteCreate v => fun ok : bool => if ok then WriteVote v else RejectVote v
  | VoteFilter epk => fun _ => ReadVotes epk
  | Tally e vs => fun _ => Ranked e vs
  end.

Definition save_token (token : string) (t : Token) (s : Store) : Store :=
  {| elections := elections s; tokens := <[token := t]> (tokens s);
     votes := votes s |}.

Definition insert_vote (v : Vote) (s : Store) : Store :=
  {| elections := elections s; tokens := tokens s; votes := votes s ++ [v] |}.

(** The token with that key, if it belongs to that election. *)
Definition find_token (election_pk token : string) (s : Store) : option Token :=
  match tokens s !! token with
  | Some t => if decide (token_election t = election_pk) then Some t else None
  | None => None
  end.

Definition votes_of (election_pk : string) (s : Store) : list Vote :=
  filter (fun v => vote_election v = election_pk) (votes s).

Record Outcome (A : Type) := Out {
  result : A;
  store : Store;
  trace : list Event
}.

Arguments Out {A} result store trace.
Arguments result {A} o.
Arguments store {A} o.
Arguments trace {A} o.

Inductive turn := First | Second.

Section Semantics.

(** Two things the handlers rely on live outside these sources: the
    integrity constraints of the [Vote] table, which decide whether an
    insert raises [IntegrityError], and the [majority_judgment] library. *)
Variable vote_integrity : Store -> Vote -> bool.
Variable mj_ranking : Election -> list (list Grade) -> list Candidate.

Definition exec_op {X} (o : op X) (s : Store) : X * Store :=
  match o in op X return X * Store with
  | ElectionGet pk => (elections s !! pk, s)
  | TokenGet epk token => (find_token epk token s, s)
  | TokenSave token t => (tt, save_token token t s)
  | VoteCreate v =>
      if vote_integrity s v then (true, insert_vote v s) else (false, s)
  | VoteFilter epk => (votes_of epk s, s)
  | Tally e vs => (mj_ranking e vs, s)
  end.

(** A request served alone: every operation runs in program order. *)
Fixpoint run {A} (m : eff A) (s : Store) : Outcome A :=
  match m with
  | Ret a => Out a s []
  | Do o k =>
      let '(x, s1) := exec_op o s in
      let r := run (k x) s1 in
      Out (result r) (store r) (event o x :: trace r)
  end.

(** One operation of a request. *)
Definition step {A} (m : eff A) (s : Store) : eff A * Store :=
  match m with
  | Ret a => (Ret a, s)
  | Do o k => let '(x, s1) := exec_op o s in (k x, s1)
  end.

(** Two requests served at once.  Nothing in the views opens a
    transaction or takes a lock, so the ORM calls of the two requests reach
    the store in any order that keeps each request's own order: a schedule
    says whose operation runs next. *)
Fixpoint interleave (sched : list turn) (a b : eff Response) (s : Store)
  : eff Response * eff Response * Store :=
  match sched with
  | [] => (a, b, s)
  | First :: rest => let '(a1, s1) := step a s in interleave rest a1 b s1
  | Second :: rest => let '(b1, s1) := step b s in interleave rest a b1 s1
  end.

End Semantics.

(** *** Properties of the handlers *)

Section Properties.

Variable vote_integrity : Store -> Vote -> bool.
Variable mj_ranking : Election -> list (list Grade) -> list Candidate.

Local Abbreviation run := (run vote_integrity mj_ranking).

Ltac case_time :=
  match goal with
  | |- context [?a <? ?b] => destruct (Z.ltb_spec a b)
  | |- context [?a >=? ?b] =>
      rewrite (Z.geb_leb a b); destruct (Z.leb_spec b a)
  end.

(** C8. Detail retrieval of an existing election answers
    ELECTION_NOT_STARTED_ERROR exactly when [now] is before [start_at];
    from [start_at] on it answers the election's details. *)
Theorem details_not_started_iff now pk s election :
  elections s !! pk = Some election ->
  let out := run (ElectionDetailsAPIView.get now pk) s in
  (result out = Resp (Message ELECTION_NOT_STARTED_ERROR) HTTP_401_UNAUTHORIZED
   <-> now < start_at election)
  /\ (start_at election <= now ->
      result out = Resp (ElectionView election) HTTP_200_OK).
Proof.
  intros Hget. cbn. rewrite Hget. case_time; cbn.
  - split; [tauto | lia].
  - split; [split; [discriminate | lia] | reflexivity].
Qed.

(** C5. On an election with [restrict_results] set, a result request
    answers ONGOING_ELECTION_ERROR exactly when [now] is before
    [finish_at]; with [restrict_results] unset the request is never answered
    with that error and always goes on to read the votes, whatever the time
    and whatever the vote table holds. *)
Theorem result_visibility now pk s election :
  elections s !! pk = Some election ->
  let out := run (ResultAPIView.get now pk) s in
  (restrict_results election = true ->
   (result out = Resp (Message ONGOING_ELECTION_ERROR) HTTP_400_BAD_REQUEST
    <-> now < finish_at election))
  /\ (restrict_results election = false ->
      data (result out) <> Message ONGOING_ELECTION_ERROR
      /\ exists rest, trace out = ReadElection pk :: ReadVotes pk :: rest).
Proof.
  intros Hget. cbn. rewrite Hget. split; intros Hr; rewrite Hr; cbn.
  - case_time; cbn; [tauto |].
    split; [| lia]. destruct (votes_of pk s); cbn; discriminate.
  - destruct (votes_of pk s); cbn; split; try discriminate; eauto.
Qed.

(** C6. A result request that finds its election and passes the visibility
    test answers NO_VOTE_ERROR with status 400 when the election has no
    vote, and then does nothing beyond reading the election and its votes;
    the ranking is computed exactly when the election has a vote. *)
Theorem result_no_votes now pk s election :
  elections s !! pk = Some election ->
  restrict_results election && (now <? finish_at election) = false ->
  let out := run (ResultAPIView.get now pk) s in
  (votes_of pk s = [] ->
   result out = Resp (Message NO_VOTE_ERROR) HTTP_400_BAD_REQUEST
   /\ trace out = [ReadElection pk; ReadVotes pk])
  /\ ((exists e vs, Ranked e vs ∈ trace out) <-> votes_of pk s <> []).
Proof.
  intros Hget Hvis. cbn. rewrite Hget, Hvis. cbn.
  destruct (votes_of pk s) as [|v vs] eqn:Hvotes; cbn.
  - split; [done |]. split; [| done].
    intros (e & ws & Hin). rewrite !elem_of_cons, elem_of_nil in Hin.
    destruct Hin as [?|[?|[]]]; discriminate.
  - split; [done |]. split; [done |]. intros _.
    eexists _, _. rewrite !elem_of_cons. eauto.
Qed.

(** **** VoteAPIView.create *)

Import VoteAPIView.

(** The only time test of [create]: at or after [finish_at] the request
    is refused before anything is read or written. *)
Lemma create_finished now vd s :
  finish_at (vd_election vd) <= now ->
  run (create now vd) s =
  Out (Resp (Message ELECTION_FINISHED_ERROR) HTTP_401_UNAUTHORIZED) s [].
Proof.
  intros Hfin. unfold create. case_time; [reflexivity | lia].
Qed.

(** No path of [create] answers ELECTION_NOT_STARTED_ERROR. *)
Lemma create_never_not_started now vd s :
  data (result (run (create now vd) s)) <> Message ELECTION_NOT_STARTED_ERROR.
Proof.
  unfold create. case_time; [cbn; discriminate |].
  destruct (on_invitation_only _), (vd_token vd); cbn;
    repeat match goal with
    | |- context [find_token ?e ?t ?s] => destruct (find_token e t s); cbn
    | |- context [used ?t] => destruct (used t) eqn:?; cbn
    | |- context [vote_integrity ?s ?v] => destruct (vote_integrity s v); cbn
    end; discriminate.
Qed.

(** Before the finish time the vote of an election that is not on
    invitation goes straight to the insert. *)
Lemma create_open_election now vd s :
  now < finish_at (vd_election vd) ->
  on_invitation_only (vd_election vd) = false ->
  run (create now vd) s =
  if vote_integrity s (vote_of vd)
  then Out (Resp NoContent HTTP_201_CREATED) (insert_vote (vote_of vd) s)
           [WriteVote (vote_of vd)]
  else Out (Resp (Message WRONG_ELECTION_ERROR) HTTP_400_BAD_REQUEST) s
           [RejectVote (vote_of vd)].
Proof.
  intros Hnow Hinv. unfold create. case_time; [lia |]. rewrite Hinv. cbn.
  destruct (vote_integrity s (vote_of vd)); reflexivity.
Qed.

(** The path of a valid, unused token: read the token, save it as used,
    then insert the vote. *)
Lemma create_unused_token now vd s token t :
  now < finish_at (vd_election vd) ->
  on_invitation_only (vd_election vd) = true ->
  vd_token vd = Some token ->
  find_token (vd_election_pk vd) token s = Some t ->
  used t = false ->
  let s1 := save_token token (set_used t) s in
  run (create now vd) s =
  if vote_integrity s1 (vote_of vd)
  then Out (Resp NoContent HTTP_201_CREATED) (insert_vote (vote_of vd) s1)
           [ReadToken (vd_election_pk vd) token; WriteToken token (set_used t);
            WriteVote (vote_of vd)]
  else Out (Resp (Message WRONG_ELECTION_ERROR) HTTP_400_BAD_REQUEST) s1
           [ReadToken (vd_election_pk vd) token; WriteToken token (set_used t);
            RejectVote (vote_of vd)].
Proof.
  intros Hnow Hinv Htok Hfind Hused. unfold create.
  case_time; [lia |]. rewrite Hinv, Htok. cbn. rewrite Hfind, Hused. cbn.
  destruct (vote_integrity _ (vote_of vd)); reflexivity.
Qed.

(** The three refusals of the token gate leave the store as it was. *)
Lemma create_token_refused now vd s :
  now < finish_at (vd_election vd) ->
  on_invitation_only (vd_election vd) = true ->
  run (create now vd) s =
  match vd_token vd with
  | None => Out (Resp (Message INVITATION_ONLY_ERROR) HTTP_400_BAD_REQUEST) s []
  | Some token =>
      match find_token (vd_election_pk vd) token s with
      | None => Out (Resp (Message UNKNOWN_TOKEN_ERROR) HTTP_400_BAD_REQUEST) s
                    [ReadToken (vd_election_pk vd) token]
      | Some t =>
          if used t
          then Out (Resp (Message USED_TOKEN_ERROR) HTTP_400_BAD_REQUEST) s
                   [ReadToken (vd_election_pk vd) token]
          else run (create now vd) s
      end
  end.
Proof.
  intros Hnow Hinv. unfold create at 1. case_time; [lia |]. rewrite Hinv.
  destruct (vd_token vd) as [token|] eqn:Htok; [| reflexivity]. cbn.
  destruct (find_token _ token s) as [t|] eqn:Hfind; [| reflexivity].
  destruct (used t) eqn:Hused; [reflexivity |].
  unfold create. case_time; [lia |]. rewrite Hinv, Htok. cbn.
  rewrite Hfind, Hused. reflexivity.
Qed.

(** The same request with another token field. *)
Definition with_token (vd : VoteData) (token : option string) : VoteData :=
  {| vd_election_pk := vd_election_pk vd; vd_election := vd_election vd;
     vd_token := token; vd_grades := vd_grades vd |}.

Definition touches_token (ev : Event) : bool :=
  match ev with
  | ReadToken _ _ | WriteToken _ _ => true
  | _ => false
  end.

(** C7. A vote reaches the token gate once it has passed the time test
    that precedes it ([now < finish_at]).  There, on an invitation-only
    election: without a token the answer is INVITATION_ONLY_ERROR, with a
    token that no row of that election carries it is UNKNOWN_TOKEN_ERROR,
    and with a token whose row is already used it is USED_TOKEN_ERROR.  On
    an election that is not on invitation the handler is the same program
    whatever the token field holds, and its run neither reads nor writes
    the token table. *)
Theorem create_token_gate now vd s :
  let pk := vd_election_pk vd in
  let out := run (create now vd) s in
  (now < finish_at (vd_election vd) ->
   on_invitation_only (vd_election vd) = true ->
   (vd_token vd = None ->
    result out = Resp (Message INVITATION_ONLY_ERROR) HTTP_400_BAD_REQUEST)
   /\ (forall token, vd_token vd = Some token ->
       (forall t, tokens s !! token = Some t -> token_election t <> pk) ->
       result out = Resp (Message UNKNOWN_TOKEN_ERROR) HTTP_400_BAD_REQUEST)
   /\ (forall token t, vd_token vd = Some token ->
       tokens s !! token = Some t -> token_election t = pk ->
       used t = true ->
       result out = Resp (Message USED_TOKEN_ERROR) HTTP_400_BAD_REQUEST))
  /\ (on_invitation_only (vd_election vd) = false ->
      (forall token, create now (with_token vd token) = create now vd)
      /\ Forall (fun ev => touches_token ev = false) (trace out)
      /\ tokens (store out) = tokens s).
Proof.
  cbn zeta. split.
  - intros Hnow Hinv. rewrite create_token_refused by assumption.
    split; [| split].
    + intros ->. reflexivity.
    + intros token -> Hnone. unfold find_token.
      destruct (tokens s !! token) as [t|] eqn:Hlook; [| reflexivity].
      destruct (decide _) as [Heq|]; [| reflexivity].
      exfalso. exact (Hnone t eq_refl Heq).
    + intros token t -> Hlook Heq Hused. unfold find_token.
      rewrite Hlook. rewrite decide_True by assumption. rewrite Hused.
      reflexivity.
  - intros Hinv. split; [| split].
    + intros token. unfold create. cbn. rewrite Hinv. reflexivity.
    + unfold create. case_time; [constructor |]. rewrite Hinv. cbn.
      destruct (vote_integrity s (vote_of vd)); cbn; repeat constructor.
    + unfold create. case_time; [reflexivity |]. rewrite Hinv. cbn.
      destruct (vote_integrity s (vote_of vd)); reflexivity.
Qed.

(** C9. With a valid, unused token on an invitation-only election the run
    reads the token, saves it as used and only then attempts the vote
    insert; when that insert raises the integrity error the answer is
    WRONG_ELECTION_ERROR, no vote is recorded and the stored token stays
    marked used. *)
Theorem create_token_saved_before_vote now vd s token t :
  now < finish_at (vd_election vd) ->
  on_invitation_only (vd_election vd) = true ->
  vd_token vd = Some token ->
  tokens s !! token = Some t ->
  token_election t = vd_election_pk vd ->
  used t = false ->
  let out := run (create now vd) s in
  let s1 := save_token token (set_used t) s in
  (exists last,
      trace out = [ReadToken (vd_election_pk vd) token;
                   WriteToken token (set_used t); last]
      /\ (last = WriteVote (vote_of vd) \/ last = RejectVote (vote_of vd)))
  /\ (vote_integrity s1 (vote_of vd) = false ->
      result out = Resp (Message WRONG_ELECTION_ERROR) HTTP_400_BAD_REQUEST
      /\ (used <$> tokens (store out) !! token) = Some true
      /\ votes (store out) = votes s).
Proof.
  intros Hnow Hinv Htok Hlook Heq Hused. cbn zeta.
  assert (Hfind : find_token (vd_election_pk vd) token s = Some t).
  { unfold find_token. rewrite Hlook. by rewrite decide_True. }
  rewrite (create_unused_token now vd s token t) by assumption. cbn zeta.
  destruct (vote_integrity _ (vote_of vd)); cbn.
  - split; [eauto | discriminate].
  - split; [eauto |]. intros _. split; [reflexivity |].
    split; [| reflexivity]. by rewrite lookup_insert_eq.
Qed.

(** C2, amended. On an invitation-only election the token save and the
    vote insert are two separate writes.  An accepted vote leaves both in
    the store; a request refused before the vote insert leaves the store
    as it was; a request whose vote insert fails is answered
    WRONG_ELECTION_ERROR and leaves the token saved as used with no vote
    recorded. *)
Theorem create_writes_not_atomic now vd s :
  on_invitation_only (vd_election vd) = true ->
  let pk := vd_election_pk vd in
  let out := run (create now vd) s in
  (status (result out) = HTTP_201_CREATED ->
   exists token t,
     vd_token vd = Some token /\ find_token pk token s = Some t
     /\ used t = false
     /\ store out = insert_vote (vote_of vd) (save_token token (set_used t) s))
  /\ (data (result out) = Message WRONG_ELECTION_ERROR ->
      exists token t,
        vd_token vd = Some token /\ find_token pk token s = Some t
        /\ used t = false
        /\ store out = save_token token (set_used t) s)
  /\ (status (result out) <> HTTP_201_CREATED ->
      data (result out) <> Message WRONG_ELECTION_ERROR ->
      store out = s).
Proof.
  intros Hinv. cbn zeta.
  destruct (Z.le_gt_cases (finish_at (vd_election vd)) now) as [Hfin|Hnow].
  { rewrite create_finished by assumption. cbn.
    repeat split; try discriminate. }
  rewrite create_token_refused by assumption.
  destruct (vd_token vd) as [token|] eqn:Htok;
    [| cbn; repeat split; discriminate].
  destruct (find_token _ token s) as [t|] eqn:Hfind;
    [| cbn; repeat split; discriminate].
  destruct (used t) eqn:Hused; [cbn; repeat split; discriminate |].
  rewrite (create_unused_token now vd s token t) by assumption. cbn zeta.
  destruct (vote_integrity _ (vote_of vd)); cbn.
  - split; [eauto 10 |]. split; [discriminate |]. intros Hs. by destruct Hs.
  - split; [discriminate |]. split; [eauto 10 |]. intros _ Hd. by destruct Hd.
Qed.

(** **** Two requests with one token *)

Local Abbreviation interleave := (interleave vote_integrity mj_ranking).

(** A schedule that gives the first request enough turns in a row serves
    it as if alone. *)
Lemma interleave_first_alone (a b : eff Response) rest : forall n s,
  (length (trace (run a s)) <= n)%nat ->
  interleave (replicate n First ++ rest) a b s =
  interleave rest (Ret (result (run a s))) b (store (run a s)).
Proof.
  induction a as [r | X o k IH]; intros n s Hn.
  - cbn. clear Hn. induction n as [|n IHn]; [reflexivity | exact IHn].
  - cbn in Hn. destruct (exec_op vote_integrity mj_ranking o s) as [x s1] eqn:Hop.
    cbn in Hn. destruct n as [|n]; [lia |].
    cbn. rewrite Hop. cbn. apply IH. lia.
Qed.

Lemma interleave_second_alone (a b : eff Response) rest : forall n s,
  (length (trace (run b s)) <= n)%nat ->
  interleave (replicate n Second ++ rest) a b s =
  interleave rest a (Ret (result (run b s))) (store (run b s)).
Proof.
  induction b as [r | X o k IH]; intros n s Hn.
  - cbn. clear Hn. induction n as [|n IHn]; [reflexivity | exact IHn].
  - cbn in Hn. destruct (exec_op vote_integrity mj_ranking o s) as [x s1] eqn:Hop.
    cbn in Hn. destruct n as [|n]; [lia |].
    cbn. rewrite Hop. cbn. apply IH. lia.
Qed.

(** [create] performs at most three operations. *)
Lemma create_trace_length now vd s :
  (length (trace (run (create now vd) s)) <= 3)%nat.
Proof.
  unfold create. case_time; [cbn; lia |].
  destruct (on_invitation_only _), (vd_token vd); cbn;
    repeat match goal with
    | |- context [find_token ?e ?t ?s] => destruct (find_token e t s); cbn
    | |- context [used ?t] => destruct (used t) eqn:?; cbn
    | |- context [vote_integrity ?s ?v] => destruct (vote_integrity s v); cbn
    end; lia.
Qed.

(** C3, amended. Two submissions with the same unused token, served one
    after the other: the first is served as if alone (accepted when its
    vote insert succeeds, and then exactly its vote is added), and the
    second is answered USED_TOKEN_ERROR and changes nothing. *)
Theorem token_single_use_serial now1 now2 vd1 vd2 s token t n m :
  now1 < finish_at (vd_election vd1) ->
  now2 < finish_at (vd_election vd2) ->
  on_invitation_only (vd_election vd1) = true ->
  on_invitation_only (vd_election vd2) = true ->
  vd_election_pk vd1 = vd_election_pk vd2 ->
  vd_token vd1 = Some token ->
  vd_token vd2 = Some token ->
  find_token (vd_election_pk vd1) token s = Some t ->
  used t = false ->
  (3 <= n)%nat -> (1 <= m)%nat ->
  let first := run (create now1 vd1) s in
  interleave (replicate n First ++ replicate m Second)
             (create now1 vd1) (create now2 vd2) s =
  (Ret (result first),
   Ret (Resp (Message USED_TOKEN_ERROR) HTTP_400_BAD_REQUEST),
   store first)
  /\ (vote_integrity (save_token token (set_used t) s) (vote_of vd1) = true ->
      result first = Resp NoContent HTTP_201_CREATED
      /\ votes (store first) = (votes s ++ [vote_of vd1])%list).
Proof.
  intros Hnow1 Hnow2 Hinv1 Hinv2 Hpk Htok1 Htok2 Hfind Hused Hn Hm. cbn zeta.
  pose proof (create_trace_length now1 vd1 s) as Hlen.
  rewrite interleave_first_alone by lia.
  rewrite <- (app_nil_r (replicate m Second)).
  assert (Hsecond : run (create now2 vd2) (store (run (create now1 vd1) s)) =
    Out (Resp (Message USED_TOKEN_ERROR) HTTP_400_BAD_REQUEST)
        (store (run (create now1 vd1) s))
        [ReadToken (vd_election_pk vd2) token]).
  { rewrite (create_token_refused now2 vd2) by assumption. rewrite Htok2.
    rewrite (create_unused_token now1 vd1 s token t) by assumption. cbn zeta.
    assert (Hsaved : forall s', tokens s' = <[token:=set_used t]> (tokens s) ->
      find_token (vd_election_pk vd2) token s' = Some (set_used t)).
    { intros s' Hs'. unfold find_token. rewrite Hs', lookup_insert_eq. cbn.
      unfold find_token in Hfind. destruct (tokens s !! token) as [t0|]; [| done].
      destruct (decide _) as [Heq|]; [| done].
      injection Hfind as ->. rewrite decide_True by congruence. done. }
    destruct (vote_integrity _ (vote_of vd1)); cbn [store];
      rewrite Hsaved by reflexivity; reflexivity. }
  rewrite interleave_second_alone by (rewrite Hsecond; cbn; lia).
  rewrite Hsecond. cbn. split; [reflexivity |].
  intros Hok. rewrite (create_unused_token now1 vd1 s token t) by assumption.
  cbn zeta. rewrite Hok. cbn. done.
Qed.

End Properties.

(** *** Worked requests *)

(** An instance of the [Vote] table's constraint, after the comment in
    [create]: the insert fails when the number of grades differs from the
    number of candidates of the election. *)
Definition grades_fit (s : Store) (v : Vote) : bool :=
  match elections s !! vote_election v with
  | Some e => (length (grades_by_candidate v) =? length (candidates e))%nat
  | None => false
  end.

(** A stand-in for the library in the worked requests: the candidates in
    ballot order. *)
Definition ballot_order (e : Election) (vs : list (list Grade))
  : list Candidate :=
  imap (fun i c => {| name := c; idx := Z.of_nat i; profile := []; grade := 0 |})
       (candidates e).

Definition poll : Election :=
  {| candidates := ["A"; "B"]; num_grades := 3; start_at := 100;
     finish_at := 200; on_invitation_only := false;
     restrict_results := false |}.

Definition invited_poll : Election :=
  {| candidates := ["A"; "B"]; num_grades := 3; start_at := 100;
     finish_at := 200; on_invitation_only := true;
     restrict_results := true |}.

Definition invitation : Token :=
  {| email := "ada@example.org"; used := false; token_election := "e2" |}.

Definition s0 : Store :=
  {| elections := <["e2" := invited_poll]> {["e1" := poll]};
     tokens := {["t1" := invitation]};
     votes := [] |}.

Definition ballot (pk : string) (e : Election) (token : option string)
  (grades : list Grade) : VoteData :=
  {| vd_election_pk := pk; vd_election := e; vd_token := token;
     vd_grades := grades |}.

Local Abbreviation run0 := (run grades_fit ballot_order).

(** C1. A vote sent at time 50 to an election that starts at 100 is
    accepted and recorded: [create] tests the finish time only. *)
Theorem create_before_start_is_accepted :
  let vd := ballot "e1" poll None [2; 0] in
  let out := run0 (VoteAPIView.create 50 vd) s0 in
  50 < start_at poll
  /\ result out = Resp NoContent HTTP_201_CREATED
  /\ votes (store out) = [VoteAPIView.vote_of vd].
Proof. vm_compute. repeat split. Qed.

Lemma details_not_started_iff_witness :
  elections s0 !! "e1" = Some poll
  /\ (result (run0 (ElectionDetailsAPIView.get 50 "e1") s0) =
      Resp (Message ELECTION_NOT_STARTED_ERROR) HTTP_401_UNAUTHORIZED
      <-> 50 < start_at poll).
Proof.
  split; [reflexivity |].
  apply (details_not_started_iff grades_fit ballot_order 50 "e1" s0 poll).
  reflexivity.
Defined.

Lemma result_visibility_witness :
  elections s0 !! "e2" = Some invited_poll
  /\ restrict_results invited_poll = true
  /\ (result (run0 (ResultAPIView.get 150 "e2") s0) =
      Resp (Message ONGOING_ELECTION_ERROR) HTTP_400_BAD_REQUEST
      <-> 150 < finish_at invited_poll).
Proof.
  split; [reflexivity |]. split; [reflexivity |].
  apply (result_visibility grades_fit ballot_order 150 "e2" s0 invited_poll);
    reflexivity.
Defined.

Lemma result_no_votes_witness :
  elections s0 !! "e1" = Some poll
  /\ votes_of "e1" s0 = []
  /\ result (run0 (ResultAPIView.get 250 "e1") s0) =
     Resp (Message NO_VOTE_ERROR) HTTP_400_BAD_REQUEST
  /\ trace (run0 (ResultAPIView.get 250 "e1") s0) =
     [ReadElection "e1"; ReadVotes "e1"].
Proof.
  split; [reflexivity |]. split; [reflexivity |].
  apply (result_no_votes grades_fit ballot_order 250 "e1" s0 poll);
    reflexivity.
Defined.

Lemma create_token_gate_witness :
  150 < finish_at invited_poll
  /\ on_invitation_only invited_poll = true
  /\ result (run0 (VoteAPIView.create 150 (ballot "e2" invited_poll None [2; 0]))
                  s0) =
     Resp (Message INVITATION_ONLY_ERROR) HTTP_400_BAD_REQUEST.
Proof.
  split; [reflexivity |]. split; [reflexivity |].
  apply (create_token_gate grades_fit ballot_order 150
           (ballot "e2" invited_poll None [2; 0]) s0); reflexivity.
Defined.

Lemma create_token_saved_before_vote_witness :
  let vd := ballot "e2" invited_poll (Some "t1") [1] in
  tokens s0 !! "t1" = Some invitation
  /\ grades_fit (save_token "t1" (set_used invitation) s0)
                (VoteAPIView.vote_of vd) = false
  /\ result (run0 (VoteAPIView.create 150 vd) s0) =
     Resp (Message WRONG_ELECTION_ERROR) HTTP_400_BAD_REQUEST
  /\ (used <$> tokens (store (run0 (VoteAPIView.create 150 vd) s0)) !! "t1")
     = Some true
  /\ votes (store (run0 (VoteAPIView.create 150 vd) s0)) = votes s0.
Proof.
  cbn zeta. split; [reflexivity |]. split; [reflexivity |].
  apply (create_token_saved_before_vote grades_fit ballot_order 150
           (ballot "e2" invited_poll (Some "t1") [1]) s0 "t1" invitation);
    reflexivity.
Defined.

(** C2 as first stated fails: the token is saved as used before the vote
    insert and nothing rolls it back.  A ballot with one grade for two
    candidates is refused by the insert, and the token that was unused is
    stored as used although no vote was recorded. *)
Lemma create_failed_vote_consumes_token :
  let vd := ballot "e2" invited_poll (Some "t1") [1] in
  let out := run0 (VoteAPIView.create 150 vd) s0 in
  (used <$> tokens s0 !! "t1") = Some false
  /\ result out = Resp (Message WRONG_ELECTION_ERROR) HTTP_400_BAD_REQUEST
  /\ trace out = [ReadToken "e2" "t1"; WriteToken "t1" (set_used invitation);
                  RejectVote (VoteAPIView.vote_of vd)]
  /\ votes (store out) = []
  /\ (used <$> tokens (store out) !! "t1") = Some true.
Proof. vm_compute. repeat split. Qed.

Lemma create_writes_not_atomic_witness :
  let vd := ballot "e2" invited_poll (Some "t1") [2; 0] in
  let out := run0 (VoteAPIView.create 150 vd) s0 in
  on_invitation_only invited_poll = true
  /\ status (result out) = HTTP_201_CREATED
  /\ exists token t,
       vd_token vd = Some token /\ find_token "e2" token s0 = Some t
       /\ used t = false
       /\ store out =
          insert_vote (VoteAPIView.vote_of vd) (save_token token (set_used t) s0).
Proof.
  cbn zeta. split; [reflexivity |]. split; [reflexivity |].
  apply (create_writes_not_atomic grades_fit ballot_order 150
           (ballot "e2" invited_poll (Some "t1") [2; 0]) s0); reflexivity.
Defined.

(** C3 as first stated fails: with the operations of two requests
    alternating, both read the token while it is still unused, both save
    it and both insert their vote. *)
Lemma token_used_twice_when_interleaved :
  let a := VoteAPIView.create 150 (ballot "e2" invited_poll (Some "t1") [2; 0]) in
  let b := VoteAPIView.create 150 (ballot "e2" invited_poll (Some "t1") [0; 1]) in
  let '(ra, rb, s) :=
    interleave grades_fit ballot_order
      [First; Second; First; Second; First; Second] a b s0 in
  (used <$> tokens s0 !! "t1") = Some false
  /\ ra = Ret (Resp NoContent HTTP_201_CREATED)
  /\ rb = Ret (Resp NoContent HTTP_201_CREATED)
  /\ votes s = [ {| vote_election := "e2"; grades_by_candidate := [2; 0] |};
                 {| vote_election := "e2"; grades_by_candidate := [0; 1] |} ].
Proof. vm_compute. repeat split. Qed.

Lemma token_single_use_serial_witness :
  let vd1 := ballot "e2" invited_poll (Some "t1") [2; 0] in
  let vd2 := ballot "e2" invited_poll (Some "t1") [0; 1] in
  find_token "e2" "t1" s0 = Some invitation
  /\ used invitation = false
  /\ interleave grades_fit ballot_order
       (replicate 3 First ++ replicate 1 Second)
       (VoteAPIView.create 150 vd1) (VoteAPIView.create 160 vd2) s0 =
     (Ret (result (run0 (VoteAPIView.create 150 vd1) s0)),
      Ret (Resp (Message USED_TOKEN_ERROR) HTTP_400_BAD_REQUEST),
      store (run0 (VoteAPIView.create 150 vd1) s0)).
Proof.
  cbn zeta. split; [reflexivity |]. split; [reflexivity |].
  apply (token_single_use_serial grades_fit ballot_order 150 160
           (ballot "e2" invited_poll (Some "t1") [2; 0])
           (ballot "e2" invited_poll (Some "t1") [0; 1]) s0 "t1" invitation 3 1);
    first [reflexivity | lia].
Defined.

(** *** What the handlers keep and never do *)

Section Invariants.

Variable vote_integrity : Store -> Vote -> bool.
Variable mj_ranking : Election -> list (list Grade) -> list Candidate.

Local Abbreviation run := (run vote_integrity mj_ranking).

Import VoteAPIView.

(** Every path of [create], one goal per path, with the run rewritten to
    its outcome. *)
Ltac create_paths now vd s :=
  destruct (Z.le_gt_cases (finish_at (vd_election vd)) now) as [Hfin|Hnow];
  [ rewrite (create_finished vote_integrity mj_ranking now vd s Hfin)
  | destruct (on_invitation_only (vd_election vd)) eqn:Hinv;
    [ rewrite (create_token_refused vote_integrity mj_ranking now vd s Hnow Hinv);
      destruct (vd_token vd) as [token|] eqn:Htok;
      [ destruct (find_token (vd_election_pk vd) token s) as [t|] eqn:Hfind;
        [ destruct (used t) eqn:Hused;
          [ | rewrite (create_unused_token vote_integrity mj_ranking now vd s
                         token t Hnow Hinv Htok Hfind Hused); cbn zeta;
              destruct (vote_integrity (save_token token (set_used t) s)
                          (vote_of vd)) eqn:Hok ]
        | ]
      | ]
    | rewrite (create_open_election vote_integrity mj_ranking now vd s Hnow Hinv);
      destruct (vote_integrity s (vote_of vd)) eqn:Hok ] ].

Lemma find_token_lookup pk token s t :
  find_token pk token s = Some t ->
  tokens s !! token = Some t /\ token_election t = pk.
Proof.
  unfold find_token. destruct (tokens s !! token) as [t0|]; [| done].
  destruct (decide _) as [Heq|]; [| done]. intros [= <-]. done.
Qed.

(** X1. The two read handlers leave the store as they found it, whatever they
    answer. *)
Theorem get_handlers_read_only now pk s :
  store (run (ElectionDetailsAPIView.get now pk) s) = s
  /\ store (run (ResultAPIView.get now pk) s) = s.
Proof.
  split; cbn; destruct (elections s !! pk) as [e|]; cbn; try reflexivity.
  - destruct (now <? start_at e); reflexivity.
  - destruct (restrict_results e && (now <? finish_at e)); cbn;
      [reflexivity |]. destruct (votes_of pk s); reflexivity.
Qed.

(** X2. Both read handlers answer UNKNOWN_ELECTION_ERROR with status 400
    exactly when no election has the requested key. *)
Theorem get_unknown_election now pk s :
  (result (run (ElectionDetailsAPIView.get now pk) s) =
     Resp (Message UNKNOWN_ELECTION_ERROR) HTTP_400_BAD_REQUEST
   <-> elections s !! pk = None)
  /\ (result (run (ResultAPIView.get now pk) s) =
        Resp (Message UNKNOWN_ELECTION_ERROR) HTTP_400_BAD_REQUEST
      <-> elections s !! pk = None).
Proof.
  split; cbn; destruct (elections s !! pk) as [e|]; cbn;
    try (split; [reflexivity | reflexivity]).
  - destruct (now <? start_at e); cbn; split; discriminate.
  - destruct (restrict_results e && (now <? finish_at e)); cbn;
      [split; discriminate |].
    destruct (votes_of pk s); cbn; split; discriminate.
Qed.

(** X3. A vote request is answered ELECTION_FINISHED_ERROR exactly when [now]
    has reached [finish_at], and that is its only answer with status 401. *)
Theorem create_finished_iff now vd s :
  let out := run (create now vd) s in
  (result out = Resp (Message ELECTION_FINISHED_ERROR) HTTP_401_UNAUTHORIZED
   <-> finish_at (vd_election vd) <= now)
  /\ (status (result out) = HTTP_401_UNAUTHORIZED
      <-> finish_at (vd_election vd) <= now).
Proof.
  cbn zeta. create_paths now vd s; cbn;
    (split; split; intros; first [done | lia]).
Qed.

(** X4. A vote request is answered 201 exactly when its ballot was appended to
    the vote table; on every other answer the vote table is as before. *)
Theorem create_accepted_iff_recorded now vd s :
  let out := run (create now vd) s in
  (status (result out) = HTTP_201_CREATED
   <-> votes (store out) = (votes s ++ [vote_of vd])%list)
  /\ (status (result out) <> HTTP_201_CREATED -> votes (store out) = votes s).
Proof.
  assert (Hne : votes s <> (votes s ++ [vote_of vd])%list).
  { intros Heq. apply (f_equal length) in Heq. rewrite length_app in Heq.
    cbn in Heq. lia. }
  cbn zeta. create_paths now vd s; cbn;
    (split; [split; intros; first [done | discriminate] | intros; done]).
Qed.

(** X5. A vote request never touches the election table, changes at most the
    token it presents, and only by marking that token used; the votes
    already recorded stay in place. *)
Theorem create_preserves_tables now vd s :
  let out := run (create now vd) s in
  elections (store out) = elections s
  /\ (forall k,
        tokens (store out) !! k = tokens s !! k
        \/ exists t, vd_token vd = Some k /\ tokens s !! k = Some t
                     /\ used t = false
                     /\ tokens (store out) !! k = Some (set_used t))
  /\ votes s `prefix_of` votes (store out).
Proof.
  cbn zeta.
  assert (Hsave : forall token t k, vd_token vd = Some token ->
    find_token (vd_election_pk vd) token s = Some t -> used t = false ->
    <[token:=set_used t]> (tokens s) !! k = tokens s !! k
    \/ exists t0, vd_token vd = Some k /\ tokens s !! k = Some t0
                  /\ used t0 = false
                  /\ <[token:=set_used t]> (tokens s) !! k = Some (set_used t0)).
  { intros token t k Htok Hfind Hused.
    apply find_token_lookup in Hfind as [Hlook _].
    destruct (decide (token = k)) as [<-|Hne].
    - right. exists t. rewrite lookup_insert_eq. done.
    - left. by rewrite lookup_insert_ne. }
  create_paths now vd s; cbn; (split; [reflexivity |]);
    (split; [ first [ by left | intros k; by eapply Hsave ]
            | first [ reflexivity | by apply prefix_app_r ] ]).
Qed.

(** **** A series of vote requests, served one after the other *)

Fixpoint serve (reqs : list (Z * VoteData)) (s : Store)
  : list Response * Store :=
  match reqs with
  | [] => ([], s)
  | (now, vd) :: rest =>
      let out := run (create now vd) s in
      let '(rs, s1) := serve rest (store out) in
      (result out :: rs, s1)
  end.

(** A served request that presented [token] on an invitation-only
    election and was answered 201. *)
Definition redeems (token : string) (served : Z * VoteData * Response) : bool :=
  let '(_, vd, r) := served in
  on_invitation_only (vd_election vd)
  && bool_decide (vd_token vd = Some token)
  && bool_decide (status r = HTTP_201_CREATED).

Definition redeemed (token : string) (reqs : list (Z * VoteData)) (s : Store)
  : nat :=
  length (List.filter (redeems token) (zip reqs (serve reqs s).1)).

Definition is_used (token : string) (s : Store) : Prop :=
  exists t, tokens s !! token = Some t /\ used t = true.

Lemma create_keeps_used now vd s tok :
  is_used tok s -> is_used tok (store (run (create now vd) s)).
Proof.
  intros (t0 & Hlook0 & Hused0). unfold is_used.
  create_paths now vd s; cbn; eauto.
  all: destruct (decide (token = tok)) as [->|Hne];
    [ rewrite lookup_insert_eq; eauto
    | rewrite lookup_insert_ne by done; eauto ].
Qed.

Lemma create_refuses_used now vd s tok :
  is_used tok s ->
  on_invitation_only (vd_election vd) = true ->
  vd_token vd = Some tok ->
  status (result (run (create now vd) s)) <> HTTP_201_CREATED.
Proof.
  intros (t0 & Hlook0 & Hused0) Hinv0 Htok0.
  create_paths now vd s; cbn; try discriminate.
  all: apply find_token_lookup in Hfind as [Hlook _]; congruence.
Qed.

Lemma create_accepted_marks_used now vd s tok :
  on_invitation_only (vd_election vd) = true ->
  vd_token vd = Some tok ->
  status (result (run (create now vd) s)) = HTTP_201_CREATED ->
  is_used tok (store (run (create now vd) s)).
Proof.
  intros Hinv0 Htok0. unfold is_used.
  create_paths now vd s; cbn; try discriminate; try congruence.
  intros _. injection Htok0 as ->. rewrite lookup_insert_eq. eauto.
Qed.

Lemma redeemed_cons token now vd rest s :
  redeemed token ((now, vd) :: rest) s =
  ((if redeems token (now, vd, result (run (create now vd) s)) then 1 else 0)
   + redeemed token rest (store (run (create now vd) s)))%nat.
Proof.
  unfold redeemed. cbn [serve].
  destruct (serve rest (store (run (create now vd) s))) as [rs s1].
  cbn [fst zip zip_with List.filter].
  destruct (redeems token _); reflexivity.
Qed.

Lemma used_token_never_redeemed token reqs : forall s,
  is_used token s -> redeemed token reqs s = 0%nat.
Proof.
  induction reqs as [|[now vd] rest IH]; intros s Hu; [reflexivity |].
  rewrite redeemed_cons, IH by (by apply create_keeps_used).
  destruct (redeems token _) eqn:Hr; [| reflexivity]. exfalso.
  unfold redeems in Hr.
  apply andb_true_iff in Hr as [Hr H201]. apply andb_true_iff in Hr as [Hi Ht].
  apply bool_decide_eq_true in H201, Ht.
  by apply (create_refuses_used now vd s token).
Qed.

(** X6. In any series of vote requests served one after the other, at most
    one request presenting a given token on an invitation-only election is
    accepted, and none when the token is already used at the start. *)
Theorem token_redeemed_at_most_once token reqs s :
  (redeemed token reqs s <= 1)%nat
  /\ (is_used token s -> redeemed token reqs s = 0%nat).
Proof.
  split; [| apply used_token_never_redeemed].
  revert s. induction reqs as [|[now vd] rest IH]; intros s; [cbn; lia |].
  rewrite redeemed_cons. destruct (redeems token _) eqn:Hr.
  - unfold redeems in Hr.
    apply andb_true_iff in Hr as [Hr H201]. apply andb_true_iff in Hr as [Hi Ht].
    apply bool_decide_eq_true in H201, Ht.
    rewrite used_token_never_redeemed; [lia |].
    by apply create_accepted_marks_used.
  - specialize (IH (store (run (create now vd) s))). lia.
Qed.

(** **** A vote and the result request that follows it *)

Lemma create_accepted_store now vd s :
  status (result (run (create now vd) s)) = HTTP_201_CREATED ->
  elections (store (run (create now vd) s)) = elections s
  /\ votes (store (run (create now vd) s)) = (votes s ++ [vote_of vd])%list.
Proof.
  create_paths now vd s; cbn; try discriminate; done.
Qed.

Lemma result_ranked now pk s e :
  elections s !! pk = Some e ->
  restrict_results e && (now <? finish_at e) = false ->
  votes_of pk s <> [] ->
  result (run (ResultAPIView.get now pk) s) =
  Resp (CandidateList (mj_ranking e (grades_by_candidate <$> votes_of pk s)))
       HTTP_200_OK.
Proof.
  intros Hget Hvis Hvotes. cbn. rewrite Hget, Hvis. cbn.
  destruct (votes_of pk s); [done | reflexivity].
Qed.

(** X7. Once a vote is accepted, a result request for its election that passes
    the visibility test no longer answers NO_VOTE_ERROR: it answers 200
    with the ranking computed from the election's earlier ballots followed
    by the new one. *)
Theorem vote_then_result now vd s now' e :
  status (result (run (create now vd) s)) = HTTP_201_CREATED ->
  elections s !! vd_election_pk vd = Some e ->
  restrict_results e && (now' <? finish_at e) = false ->
  result (run (ResultAPIView.get now' (vd_election_pk vd))
              (store (run (create now vd) s))) =
  Resp (CandidateList
          (mj_ranking e ((grades_by_candidate <$> votes_of (vd_election_pk vd) s)
                         ++ [vd_grades vd])%list))
       HTTP_200_OK.
Proof.
  intros H201 Hget Hvis.
  destruct (create_accepted_store now vd s H201) as [Hel Hvotes].
  assert (Hof : votes_of (vd_election_pk vd) (store (run (create now vd) s)) =
                (votes_of (vd_election_pk vd) s ++ [vote_of vd])%list).
  { unfold votes_of. rewrite Hvotes, filter_app, filter_cons_True by done.
    reflexivity. }
  rewrite (result_ranked now' _ _ e); [| by rewrite Hel | done |].
  - rewrite Hof, fmap_app. reflexivity.
  - rewrite Hof. intros Hnil. by apply app_eq_nil in Hnil as [_ ?].
Qed.

(** **** Two requests at once, whatever the schedule *)

Local Abbreviation interleave := (interleave vote_integrity mj_ranking).
Local Abbreviation exec_op := (exec_op vote_integrity mj_ranking).

(** A handler none of whose operations can clear a used flag. *)
Fixpoint keeps_used {A} (p : eff A) : Prop :=
  match p with
  | Ret _ => True
  | Do o k =>
      (forall tok s, is_used tok s -> is_used tok (exec_op o s).2)
      /\ forall x, keeps_used (k x)
  end.

(** A handler that cannot end in 201 as long as [tok] is used. *)
Fixpoint refuses (tok : string) (p : eff Response) : Prop :=
  match p with
  | Ret r => status r <> HTTP_201_CREATED
  | Do o k => forall s, is_used tok s -> refuses tok (k (exec_op o s).1)
  end.

Lemma save_used_keeps tok token t s :
  is_used tok s -> is_used tok (save_token token (set_used t) s).
Proof.
  intros (t0 & Hlook & Hused). unfold is_used. cbn.
  destruct (decide (token = tok)) as [->|Hne].
  - rewrite lookup_insert_eq. eauto.
  - rewrite lookup_insert_ne by done. eauto.
Qed.

Lemma create_keeps_used_flags now vd : keeps_used (create now vd).
Proof.
  assert (Hpersist : forall v (k : bool -> eff Response),
    (forall x, keeps_used (k x)) -> keeps_used (Do (VoteCreate v) k)).
  { intros v k Hk. split; [| exact Hk]. intros tok s Hu. cbn.
    destruct (vote_integrity s v); exact Hu. }
  unfold create. destruct (now >=? _); [exact I |].
  destruct (on_invitation_only _).
  - destruct (vd_token vd) as [token|]; [| exact I].
    split; [intros tok s Hu; exact Hu |].
    intros [t|]; [| exact I]. destruct (used t); [exact I |].
    split; [intros tok s Hu; by apply save_used_keeps |].
    intros _. apply Hpersist. intros []; exact I.
  - apply Hpersist. intros []; exact I.
Qed.

Lemma create_refuses_while_used now vd tok :
  on_invitation_only (vd_election vd) = true ->
  vd_token vd = Some tok ->
  refuses tok (create now vd).
Proof.
  intros Hinv Htok. unfold create. destruct (now >=? _); [cbn; discriminate |].
  rewrite Hinv, Htok. intros s (t0 & Hlook & Hused). cbn.
  unfold find_token. rewrite Hlook.
  destruct (decide _); [rewrite Hused |]; cbn; discriminate.
Qed.

Lemma interleave_used sched tok : forall (a b : eff Response) s,
  keeps_used a -> keeps_used b -> is_used tok s ->
  let '(a1, b1, s1) := interleave sched a b s in
  is_used tok s1
  /\ (refuses tok a -> refuses tok a1)
  /\ (refuses tok b -> refuses tok b1).
Proof.
  induction sched as [|[] rest IH]; intros a b s Ka Kb Hu; [cbn; tauto | |].
  - cbn [Views.interleave]. destruct a as [r | X o k]; cbn [step].
    + by apply IH.
    + destruct Ka as [Ko Kk].
      pose proof (Ko tok s Hu) as Hu1.
      destruct (exec_op o s) as [x s1] eqn:Hop. cbn in Hu1.
      specialize (IH (k x) b s1 (Kk x) Kb Hu1).
      destruct (interleave rest (k x) b s1) as [[a2 b2] s2].
      destruct IH as (? & Ha & ?). split; [done |]. split; [| done].
      intros Hr. apply Ha. specialize (Hr s Hu). by rewrite Hop in Hr.
  - cbn [Views.interleave]. destruct b as [r | X o k]; cbn [step].
    + by apply IH.
    + destruct Kb as [Ko Kk].
      pose proof (Ko tok s Hu) as Hu1.
      destruct (exec_op o s) as [x s1] eqn:Hop. cbn in Hu1.
      specialize (IH a (k x) s1 Ka (Kk x) Hu1).
      destruct (interleave rest a (k x) s1) as [[a2 b2] s2].
      destruct IH as (? & ? & Hb). split; [done |]. split; [done |].
      intros Hr. apply Hb. specialize (Hr s Hu). by rewrite Hop in Hr.
Qed.

(** X8. Whatever the order in which the operations of two vote requests reach
    the store, a token that is used when they start stays used, and a
    request presenting it on an invitation-only election is not answered
    201. *)
Theorem used_token_refused_in_any_schedule sched now1 vd1 now2 vd2 s tok :
  is_used tok s ->
  let '(a, b, s1) := interleave sched (create now1 vd1) (create now2 vd2) s in
  is_used tok s1
  /\ (on_invitation_only (vd_election vd1) = true -> vd_token vd1 = Some tok ->
      forall r, a = Ret r -> status r <> HTTP_201_CREATED)
  /\ (on_invitation_only (vd_election vd2) = true -> vd_token vd2 = Some tok ->
      forall r, b = Ret r -> status r <> HTTP_201_CREATED).
Proof.
  intros Hu.
  pose proof (interleave_used sched tok (create now1 vd1) (create now2 vd2) s
                (create_keeps_used_flags now1 vd1)
                (create_keeps_used_flags now2 vd2) Hu) as H.
  destruct (interleave sched _ _ s) as [[a b] s1].
  destruct H as (Hu1 & Ha & Hb). split; [done |]. split.
  - intros Hinv Htok r ->.
    exact (Ha (create_refuses_while_used now1 vd1 tok Hinv Htok)).
  - intros Hinv Htok r ->.
    exact (Hb (create_refuses_while_used now2 vd2 tok Hinv Htok)).
Qed.

(** **** Elections do not see each other's votes *)

(** X20. A vote recorded for another election changes neither the answer of a
    result request nor what it reads and computes. *)
Theorem result_ignores_other_elections now pk s v :
  vote_election v <> pk ->
  result (run (ResultAPIView.get now pk) (insert_vote v s)) =
    result (run (ResultAPIView.get now pk) s)
  /\ trace (run (ResultAPIView.get now pk) (insert_vote v s)) =
     trace (run (ResultAPIView.get now pk) s).
Proof.
  intros Hne.
  assert (Hof : votes_of pk (insert_vote v s) = votes_of pk s).
  { unfold votes_of, insert_vote. cbn.
    rewrite filter_app, filter_cons_False by done.
    by rewrite filter_nil, app_nil_r. }
  unfold ResultAPIView.get. cbn [Views.run Views.exec_op].
  cbn [insert_vote elections]. destruct (elections s !! pk) as [e|]; [| done].
  cbn [result trace]. destruct (restrict_results e && (now <? finish_at e));
    [done |].
  cbn [Views.run Views.exec_op result trace]. rewrite Hof.
  destruct (votes_of pk s); cbn; done.
Qed.

End Invariants.

Definition s_used : Store := save_token "t1" (set_used invitation) s0.

Lemma result_ignores_other_elections_witness :
  let v := {| vote_election := "e2"; grades_by_candidate := [1; 1] |} in
  vote_election v <> "e1"
  /\ result (run0 (ResultAPIView.get 160 "e1") (insert_vote v s0)) =
     result (run0 (ResultAPIView.get 160 "e1") s0).
Proof.
  cbn zeta. split; [discriminate |].
  apply (result_ignores_other_elections grades_fit ballot_order 160 "e1" s0
           {| vote_election := "e2"; grades_by_candidate := [1; 1] |}).
  discriminate.
Defined.

Lemma create_accepted_iff_recorded_witness :
  let out :=
    run0 (VoteAPIView.create 200 (ballot "e1" poll None [2; 0])) s0 in
  status (result out) <> HTTP_201_CREATED
  /\ votes (store out) = votes s0.
Proof.
  cbn zeta. split; [discriminate |].
  apply (create_accepted_iff_recorded grades_fit ballot_order 200
           (ballot "e1" poll None [2; 0]) s0).
  discriminate.
Defined.

Lemma vote_then_result_witness :
  let vd := ballot "e1" poll None [2; 0] in
  status (result (run0 (VoteAPIView.create 150 vd) s0)) = HTTP_201_CREATED
  /\ elections s0 !! "e1" = Some poll
  /\ result (run0 (ResultAPIView.get 160 "e1")
                  (store (run0 (VoteAPIView.create 150 vd) s0))) =
     Resp (CandidateList (ballot_order poll [[2; 0]])) HTTP_200_OK.
Proof.
  cbn zeta. split; [reflexivity |]. split; [reflexivity |].
  apply (vote_then_result grades_fit ballot_order 150
           (ballot "e1" poll None [2; 0]) s0 160 poll); reflexivity.
Defined.

Lemma token_redeemed_at_most_once_witness :
  let vd := ballot "e2" invited_poll (Some "t1") [2; 0] in
  is_used "t1" s_used
  /\ redeemed grades_fit ballot_order "t1" [(150, vd); (160, vd)] s_used = 0%nat.
Proof.
  cbn zeta.
  assert (Hu : is_used "t1" s_used) by (exists (set_used invitation); done).
  split; [exact Hu |].
  apply (token_redeemed_at_most_once grades_fit ballot_order "t1"
           [(150, ballot "e2" invited_poll (Some "t1") [2; 0]);
            (160, ballot "e2" invited_poll (Some "t1") [2; 0])] s_used).
  exact Hu.
Defined.

Lemma used_token_refused_in_any_schedule_witness :
  let vd := ballot "e2" invited_poll (Some "t1") [2; 0] in
  is_used "t1" s_used
  /\ let '(a, b, s1) :=
       interleave grades_fit ballot_order [First; Second; First; Second]
         (VoteAPIView.create 150 vd) (VoteAPIView.create 150 vd) s_used in
     is_used "t1" s1
     /\ (on_invitation_only (vd_election vd) = true ->
         vd_token vd = Some "t1" ->
         forall r, a = Ret r -> status r <> HTTP_201_CREATED)
     /\ (on_invitation_only (vd_election vd) = true ->
         vd_token vd = Some "t1" ->
         forall r, b = Ret r -> status r <> HTTP_201_CREATED).
Proof.
  cbn zeta.
  assert (Hu : is_used "t1" s_used) by (exists (set_used invitation); done).
  split; [exact Hu |].
  exact (used_token_refused_in_any_schedule grades_fit ballot_order
           [First; Second; First; Second]
           150 (ballot "e2" invited_poll (Some "t1") [2; 0])
           150 (ballot "e2" invited_poll (Some "t1") [2; 0]) s_used "t1" Hu).
Defined.

(** *** Invitations: send_mail_invitation and ElectionCreateAPIView *)

Module Invite.

(** The two Django settings the mail uses. *)
Record Settings := { SITE_URL : string; EMAIL_HOST_USER : string }.

(** The attributes of the saved election that the creation view reads. *)
Record ElectionObject := {
  id : string;
  title : string;
  select_language : string
}.

(** [EmailMultiAlternatives(subject, body, from_email, to)] with its
    attached alternatives. *)
Record Email := {
  subject : string;
  body : string;
  from_email : string;
  to : list string;
  alternatives : list (string * string)
}.

(** Python's [sub in s] on two strings: [sub] occurs somewhere in [s]. *)
Fixpoint contains (sub s : string) : bool :=
  String.prefix sub s
  || match s with
     | EmptyString => false
     | String _ rest => contains sub rest
     end.

(** The argument handed to [activate]; which language is active after the
    call is Django's business and is not modelled.
    [os.environ.get("LANGUAGES_AVAILABLE", [])] is the variable's string
    when it is set and the empty list when it is not, and nothing is in the
    empty list. *)
Definition activate_argument (LANGUAGES_AVAILABLE : option string)
  (election : ElectionObject) : string :=
  if match LANGUAGES_AVAILABLE with
     | Some available => contains (select_language election) available
     | None => false
     end
  then select_language election
  else "en".

Definition invitation_url (settings : Settings) (election : ElectionObject)
  (token_id : string) : string :=
  let token_get := "?token=" ++ token_id in
  SITE_URL settings ++ "/vote/" ++ id election ++ token_get.

Definition result_url (settings : Settings) (election : ElectionObject)
  : string :=
  SITE_URL settings ++ "/result/" ++ id election.

Definition merge_data (settings : Settings) (election : ElectionObject)
  (token_id : string) : gmap string string :=
  <["title" := title election]>
    (<["result_url" := result_url settings election]>
       {["invitation_url" := invitation_url settings election token_id]}).

Section Mail.

Variable settings : Settings.
Variable LANGUAGES_AVAILABLE : option string.
(** Template rendering and translation.  Both run after [activate], so
    their result may depend on the argument it was given: that argument is
    their first parameter here. *)
Variable render_to_string : string -> string -> gmap string string -> string.
Variable gettext : string -> string -> string.

(** The argument it hands to [activate] and the message it sends. *)
Definition send_mail_invitation (email : string) (election : ElectionObject)
  (token_id : string) : string * Email :=
  let data := merge_data settings election token_id in
  let lang := activate_argument LANGUAGES_AVAILABLE election in
  let text_body := render_to_string lang "election/mail_invitation.txt" data in
  let html_body := render_to_string lang "election/mail_invitation.html" data in
  (lang,
   {| subject := "[" ++ gettext lang "Mieux Voter" ++ "] " ++ title election;
      body := text_body;
      from_email := EMAIL_HOST_USER settings;
      to := [email];
      alternatives := [(html_body, "text/html")] |}).

End Mail.

Lemma append_nil_l (s : string) : "" ++ s = s.
Proof. reflexivity. Qed.

Lemma append_cons (c : Ascii.ascii) (a b : string) :
  String c a ++ b = String c (a ++ b).
Proof. reflexivity. Qed.

Lemma prefix_spec a s :
  String.prefix a s = true <-> exists post, s = a ++ post.
Proof.
  revert s. induction a as [|c a IH]; intros s.
  - split; [intros _; by exists s | intros _; by destruct s].
  - destruct s as [|d s]; cbn [String.prefix].
    { split; [done | intros [post Hp]; by rewrite append_cons in Hp]. }
    destruct (Ascii.ascii_dec c d) as [->|Hne].
    + rewrite IH. split; intros [post Hp]; exists post.
      * by rewrite append_cons, Hp.
      * rewrite append_cons in Hp. congruence.
    + split; [done |]. intros [post Hp]. rewrite append_cons in Hp. congruence.
Qed.

(** [contains] is occurrence as a substring. *)
Lemma contains_spec sub s :
  contains sub s = true <-> exists pre post, s = pre ++ sub ++ post.
Proof.
  induction s as [|c s IH]; cbn [contains]; rewrite orb_true_iff, prefix_spec.
  - split.
    + intros [[post Hp]|]; [| done]. by exists "", post.
    + intros (pre & post & Hp). left.
      destruct pre as [|d pre]; [by exists post |].
      by rewrite append_cons in Hp.
  - rewrite IH. split.
    + intros [[post Hp]|(pre & post & Hp)]; [by exists "", post |].
      exists (String c pre), post. by rewrite append_cons, Hp.
    + intros (pre & post & Hp).
      destruct pre as [|d pre]; [left; by exists post |].
      right. exists pre, post. rewrite append_cons in Hp. congruence.
Qed.

Lemma append_inj_r (pre a b : string) : pre ++ a = pre ++ b -> a = b.
Proof.
  induction pre as [|c pre IH]; [done |].
  rewrite !append_cons. intros [= H]. auto.
Qed.

(** X9. The argument that [send_mail_invitation] hands to [activate] is
    the election's [select_language] exactly when that code is "en" itself
    or LANGUAGES_AVAILABLE is set and the code occurs in it as a substring;
    in every other case, and always when the variable is unset, the
    argument is "en".  The empty code occurs in every string, so with the
    variable set an election without a language code hands [activate] the
    empty string: the "en" fallback is not substituted for it. *)
Theorem language_choice (env : option string) (election : ElectionObject) :
  (activate_argument env election = select_language election
   <-> select_language election = "en"
       \/ exists available pre post,
            env = Some available
            /\ available = pre ++ select_language election ++ post)
  /\ (activate_argument env election <> select_language election ->
      activate_argument env election = "en")
  /\ (env = None -> activate_argument env election = "en")
  /\ (forall available, env = Some available -> select_language election = "" ->
      activate_argument env election = "").
Proof.
  unfold activate_argument. split; [| split; [| split]].
  - destruct env as [available|].
    + destruct (contains _ available) eqn:Hc.
      * split; [| done]. intros _. right.
        apply contains_spec in Hc as (pre & post & Hp). eauto.
      * split; [by left |]. intros [->|(av & pre & post & [= <-] & Hp)]; [done |].
        assert (contains (select_language election) available = true) as Ht
          by (apply contains_spec; eauto).
        congruence.
    + split; [by left |]. intros [->|(av & ? & ? & ? & _)]; done.
  - destruct env as [available|]; [| done].
    destruct (contains _ available); done.
  - intros ->. reflexivity.
  - intros available -> ->. destruct available; reflexivity.
Qed.

Lemma invitation_url_injective settings election token1 token2 :
  invitation_url settings election token1 =
  invitation_url settings election token2 ->
  token1 = token2.
Proof.
  unfold invitation_url. cbn zeta. intros H.
  repeat apply append_inj_r in H. exact H.
Qed.

(** X10. For one site and election, two invitation links are equal only when
    they carry the same token: the link determines the token. *)
Theorem invitation_url_determines_token settings election token1 token2 :
  invitation_url settings election token1 =
  invitation_url settings election token2
  <-> token1 = token2.
Proof.
  split; [apply invitation_url_injective | by intros ->].
Qed.

(** **** ElectionCreateAPIView.create, from the saved election on

    [serializer.save()] and the serializer's data are outside these
    sources: the view is modelled from the election object that [save]
    returned, and its response by the status code. *)

Inductive Raised := IntegrityError.

(** [Token(election=election, email=email)]: [used] defaults to false
    (migration 0004). *)
Definition new_token (election : ElectionObject) (email : string) : Token :=
  {| Views.email := email; used := false; token_election := id election |}.

Section Creation.

Variable settings : Settings.
Variable LANGUAGES_AVAILABLE : option string.
Variable render_to_string : string -> string -> gmap string string -> string.
Variable gettext : string -> string -> string.
(** The primary key the [Token] model gives a new row; how it is drawn is
    not in these sources. *)
Variable new_token_id : Store -> string.

Local Abbreviation send_mail_invitation :=
  (send_mail_invitation settings LANGUAGES_AVAILABLE render_to_string gettext).

(** [Token.objects.create(election=election, email=email)]: an INSERT,
    which raises on a primary key that is already in the table. *)
Definition token_create (election : ElectionObject) (email : string)
  (s : Store) : Raised + string * Store :=
  let token_id := new_token_id s in
  match tokens s !! token_id with
  | Some _ => inl IntegrityError
  | None => inr (token_id, save_token token_id (new_token election email) s)
  end.

(** The loop over the emails: for each one the token it created and the
    mail it sent, up to the first insert that raises. *)
Fixpoint invite (election : ElectionObject) (electors_emails : list string)
  (s : Store) : list (string * (string * Email)) * Store * option Raised :=
  match electors_emails with
  | [] => ([], s, None)
  | email :: rest =>
      match token_create election email s with
      | inl e => ([], s, Some e)
      | inr (token_id, s1) =>
          let sent := send_mail_invitation email election token_id in
          let '(more, s2, r) := invite election rest s1 in
          ((token_id, sent) :: more, s2, r)
      end
  end.

(** [elector_emails] is [None] when the validated data has no such key. *)
Definition create (election : ElectionObject)
  (elector_emails : option (list string)) (s : Store)
  : list (string * (string * Email)) * Store * (Raised + Z) :=
  let electors_emails := default [] elector_emails in
  let '(sent, s1, r) := invite election electors_emails s in
  (sent, s1,
   match r with
   | Some e => inl e
   | None => inr HTTP_201_CREATED
   end).

(** What the loop keeps, by induction on the emails. *)
Lemma invite_spec election emails : forall s,
  let '(sent, s1, r) := invite election emails s in
  (length sent <= length emails)%nat
  /\ (r = None <-> length sent = length emails)
  /\ sent.*2 = zip_with (fun email tok => send_mail_invitation email election tok)
                        emails (sent.*1)
  /\ NoDup (sent.*1)
  /\ (forall tok, tok ∈ sent.*1 -> tokens s !! tok = None)
  /\ (forall i tok email, sent.*1 !! i = Some tok -> emails !! i = Some email ->
      tokens s1 !! tok = Some (new_token election email))
  /\ (forall k t, tokens s !! k = Some t -> tokens s1 !! k = Some t)
  /\ elections s1 = elections s /\ votes s1 = votes s.
Proof.
  induction emails as [|email rest IH]; intros s.
  { cbn. repeat split; try done; try constructor. intros ? Hin. by inversion Hin. }
  cbn [invite]. unfold token_create.
  destruct (tokens s !! new_token_id s) eqn:Hfresh.
  { cbn. repeat split; try done; try lia; try constructor.
    intros ? Hin. by inversion Hin. }
  set (tok0 := new_token_id s) in *.
  set (s0 := save_token tok0 (new_token election email) s).
  specialize (IH s0).
  destruct (invite election rest s0) as [[more s2] r].
  destruct IH as (Hlen & Hr & Hmail & Hnd & Hnew & Hin & Hold & Hel & Hvo).
  assert (Hkeep : tokens s2 !! tok0 = Some (new_token election email)).
  { apply Hold. unfold s0. cbn. by rewrite lookup_insert_eq. }
  assert (Hnot : tok0 ∉ more.*1).
  { intros Hin0. apply Hnew in Hin0. unfold s0 in Hin0. cbn in Hin0.
    by rewrite lookup_insert_eq in Hin0. }
  cbn. split; [lia |]. split; [rewrite Hr; lia |].
  split; [by rewrite Hmail |]. split; [by constructor |].
  split; [| split; [| split]].
  - intros tok [->|Hin0]%elem_of_cons; [done |].
    apply Hnew in Hin0. unfold s0 in Hin0. cbn in Hin0.
    destruct (decide (tok0 = tok)) as [->|Hne].
    + by rewrite lookup_insert_eq in Hin0.
    + by rewrite lookup_insert_ne in Hin0.
  - intros [|i] tok em; cbn.
    + by intros [= <-] [= <-].
    + apply Hin.
  - intros k t Hk. apply Hold. unfold s0. cbn.
    destruct (decide (tok0 = k)) as [->|Hne]; [congruence |].
    by rewrite lookup_insert_ne.
  - by rewrite Hel, Hvo.
Qed.

Lemma zip_with_take_l {A B C} (f : A -> B -> C) (l1 : list A) : forall l2,
  zip_with f (take (length l2) l1) l2 = zip_with f l1 l2.
Proof.
  induction l1 as [|x l1 IH]; intros [|y l2]; cbn; try reflexivity.
  by rewrite IH.
Qed.

(** X11. The creation view answers 201 exactly when every elector got a token
    and a mail; the mails sent are, in order, the invitations of the
    electors' addresses with the tokens created for them, and each of these
    tokens is stored unused, with that address, for the new election.
    Without an [elector_emails] key nothing is created or sent. *)
Theorem create_invites_electors election elector_emails s :
  let emails := default [] elector_emails in
  let out := create election elector_emails s in
  let sent := out.1.1 in
  (out.2 = inr HTTP_201_CREATED <-> length sent = length emails)
  /\ sent.*2 = zip_with (fun email tok => send_mail_invitation email election tok)
                        (take (length sent) emails) (sent.*1)
  /\ (forall i tok email, sent.*1 !! i = Some tok -> emails !! i = Some email ->
      tokens out.1.2 !! tok = Some (new_token election email))
  /\ (elector_emails = None ->
      sent = [] /\ out.1.2 = s /\ out.2 = inr HTTP_201_CREATED).
Proof.
  cbn zeta. destruct elector_emails as [emails|]; [| cbn; by repeat split].
  unfold create. change (default [] (Some emails)) with emails.
  pose proof (invite_spec election emails s) as H.
  destruct (invite election emails s) as [[sent s1] r]. cbn [fst snd].
  destruct H as (Hlen & Hr & Hmail & _ & _ & Hin & _).
  split; [| split; [| split]]; [| | exact Hin | done].
  - rewrite <- Hr. destruct r as [[]|]; split; done.
  - rewrite Hmail at 1.
    rewrite <- (length_fmap fst sent) at 1. by rewrite zip_with_take_l.
Qed.


End Creation.

(** **** From the invitation to the vote *)

Section InviteThenVote.

Variable settings : Settings.
Variable LANGUAGES_AVAILABLE : option string.
Variable render_to_string : string -> string -> gmap string string -> string.
Variable gettext : string -> string -> string.
Variable new_token_id : Store -> string.
Variable vote_integrity : Store -> Vote -> bool.
Variable mj_ranking : Election -> list (list Grade) -> list Candidate.

Local Abbreviation create :=
  (create settings LANGUAGES_AVAILABLE render_to_string gettext new_token_id).

(** X13. A token that the creation view has just created is accepted by the
    vote view: a request presenting it for the same election, on
    invitation only and before the finish time, is answered 201 provided
    the insert of its ballot passes the table's constraints. *)
Theorem invited_token_is_accepted election elector_emails s now vd tok :
  let sent := (create election elector_emails s).1.1 in
  let s1 := (create election elector_emails s).1.2 in
  tok ∈ sent.*1 ->
  vd_election_pk vd = id election ->
  on_invitation_only (vd_election vd) = true ->
  vd_token vd = Some tok ->
  now < finish_at (vd_election vd) ->
  (forall t, vote_integrity (save_token tok (set_used t) s1)
                            (VoteAPIView.vote_of vd) = true) ->
  result (run vote_integrity mj_ranking (VoteAPIView.create now vd) s1) =
  Resp NoContent HTTP_201_CREATED.
Proof.
  cbn zeta. unfold create, Invite.create.
  pose proof (invite_spec settings LANGUAGES_AVAILABLE render_to_string gettext
                new_token_id election (default [] elector_emails) s) as H.
  destruct (invite _ _ _ _ _ election (default [] elector_emails) s)
    as [[sent s1] r].
  cbn [fst snd]. destruct H as (Hlen & _ & _ & _ & _ & Hin & _).
  intros Htok Hpk Hinv Hpresent Hnow Hok.
  apply list_elem_of_lookup in Htok as [i Hi].
  assert (is_Some (default [] elector_emails !! i)) as [email Hemail].
  { apply lookup_lt_is_Some. apply lookup_lt_Some in Hi.
    rewrite length_fmap in Hi. lia. }
  pose proof (Hin i tok email Hi Hemail) as Hstored.
  rewrite (create_unused_token vote_integrity mj_ranking now vd s1 tok
             (new_token election email)); try done.
  - cbn zeta. by rewrite Hok.
  - unfold find_token. rewrite Hstored. cbn. by rewrite decide_True.
Qed.

End InviteThenVote.

(** *** Worked invitations *)

Definition site : Settings :=
  {| SITE_URL := "https://vote.example.org";
     EMAIL_HOST_USER := "noreply@example.org" |}.

Definition plain_render (lang template : string) (data : gmap string string)
  : string :=
  template.

Definition no_translation (lang msg : string) : string := msg.

Definition next_key (s : Store) : string :=
  match size (tokens s) with
  | 1%nat => "k1"
  | 2%nat => "k2"
  | _ => "k3"
  end.

Definition new_poll : ElectionObject :=
  {| id := "e2"; title := "Committee"; select_language := "fr" |}.

Lemma invited_token_is_accepted_witness :
  let emails := Some ["ada@example.org"; "bob@example.org"] in
  let created :=
    create site (Some "en,fr") plain_render no_translation next_key
           new_poll emails s0 in
  let vd := ballot "e2" invited_poll (Some "k2") [2; 0] in
  "k2" ∈ created.1.1.*1
  /\ result (run grades_fit ballot_order (VoteAPIView.create 150 vd)
                 created.1.2) =
     Resp NoContent HTTP_201_CREATED.
Proof.
  cbn zeta.
  assert (Hin : "k2" ∈ (create site (Some "en,fr") plain_render no_translation
                          next_key new_poll
                          (Some ["ada@example.org"; "bob@example.org"])
                          s0).1.1.*1).
  { vm_compute. apply list_elem_of_further, list_elem_of_here. }
  split; [exact Hin |].
  apply (invited_token_is_accepted site (Some "en,fr") plain_render
           no_translation next_key grades_fit ballot_order new_poll
           (Some ["ada@example.org"; "bob@example.org"]) s0 150
           (ballot "e2" invited_poll (Some "k2") [2; 0]) "k2");
    first [exact Hin | reflexivity | intros t; reflexivity].
Defined.

Lemma language_choice_witness :
  activate_argument None new_poll = "en".
Proof. apply (language_choice None new_poll). reflexivity. Defined.

Lemma create_invites_electors_witness :
  let out :=
    create site (Some "en,fr") plain_render no_translation next_key
           new_poll (Some ["ada@example.org"; "bob@example.org"]) s0 in
  out.1.1.*1 !! 0%nat = Some "k1"
  /\ tokens out.1.2 !! "k1" = Some (new_token new_poll "ada@example.org").
Proof.
  cbn zeta. split; [reflexivity |].
  apply (create_invites_electors site (Some "en,fr") plain_render
           no_translation next_key new_poll
           (Some ["ada@example.org"; "bob@example.org"]) s0) with 0%nat;
    reflexivity.
Defined.


End Invite.

End Views.

(** ** app/crud.py *)

Module Crud.

Inductive Column := Id | Ref.

(** What reaches the database: [count()] and [first()] each execute the
    query they are called on. *)
Inductive Event :=
| Count (c : Column)
| First (c : Column).

Definition column (ev : Event) : Column :=
  match ev with Count c | First c => c end.

Section GetElection.

(** [models.Election] is declared outside these sources: the type of
    identifiers, the row type and its [id] and [ref] columns are taken as
    given.  The table is the list of its rows; nothing in it is assumed
    unique, since [get_election] itself tests for duplicates. *)
Context {K : Type} `{EqDecision K}.
Variable Election : Type.
Variable id ref : Election -> K.

(** [errors.InconsistentDatabaseError(name, details)], the details
    naming the duplicated column and the identifier, and
    [errors.NotFoundError(name)]. *)
Inductive Error :=
| InconsistentDatabaseError (name : string) (c : Column) (election_id : K)
| NotFoundError (name : string).

(** A computation that may raise, with the log of executed queries. *)
Definition session (A : Type) : Type := (Error + A) * list Event.

Definition ret {A} (a : A) : session A := (inr a, []).

Definition raise {A} (e : Error) : session A := (inl e, []).

Definition bind {A B} (m : session A) (f : A -> session B) : session B :=
  match m with
  | (inl e, log) => (inl e, log)
  | (inr a, log) => let '(r, log') := f a in (r, (log ++ log')%list)
  end.

Notation "x <- m ;; k" := (bind m (fun x => k))
  (at level 100, m at next level, right associativity).

(** [db.query(models.Election).filter(col == election_id)]: a query is the
    column it filters on together with the rows it selects. *)
Definition Query : Type := Column * list Election.

Definition filter_by (db : list Election) (c : Column) (election_id : K)
  : Query :=
  (c, filter (fun e => match c with Id => id e | Ref => ref e end = election_id)
             db).

Definition count (q : Query) : session nat := (inr (length (q.2)), [Count q.1]).

Definition first (q : Query) : session (option Election) :=
  (inr (head (q.2)), [First q.1]).

Definition get_election (db : list Election) (election_id : K)
  : session (option Election) :=
  let elections_by_id := filter_by db Id election_id in
  n <- count elections_by_id ;;
  if (1 <? n)%nat then
    raise (InconsistentDatabaseError "elections" Id election_id)
  else
  n <- count elections_by_id ;;
  if (n =? 1)%nat then first elections_by_id
  else
  let elections_by_ref := filter_by db Ref election_id in
  n <- count elections_by_ref ;;
  if (1 <? n)%nat then
    raise (InconsistentDatabaseError "elections" Ref election_id)
  else
  n <- count elections_by_ref ;;
  if (n =? 1)%nat then first elections_by_ref
  else raise (NotFoundError "elections").

(** The rows an identifier selects through each column. *)
Definition by_id (db : list Election) (x : K) : list Election :=
  (filter_by db Id x).2.

Definition by_ref (db : list Election) (x : K) : list Election :=
  (filter_by db Ref x).2.

(** [get_election] by cases on the two selections. *)
Lemma get_election_cases db x :
  get_election db x =
  match by_id db x with
  | _ :: _ :: _ =>
      (inl (InconsistentDatabaseError "elections" Id x), [Count Id])
  | [e] => (inr (Some e), [Count Id; Count Id; First Id])
  | [] =>
      match by_ref db x with
      | _ :: _ :: _ =>
          (inl (InconsistentDatabaseError "elections" Ref x),
           [Count Id; Count Id; Count Ref])
      | [e] => (inr (Some e),
                [Count Id; Count Id; Count Ref; Count Ref; First Ref])
      | [] => (inl (NotFoundError "elections"),
               [Count Id; Count Id; Count Ref; Count Ref])
      end
  end.
Proof.
  unfold get_election, by_id, by_ref.
  destruct (filter_by db Id x) as [c1 l1] eqn:H1.
  assert (c1 = Id) as -> by (unfold filter_by in H1; congruence).
  destruct (filter_by db Ref x) as [c2 l2] eqn:H2.
  assert (c2 = Ref) as -> by (unfold filter_by in H2; congruence).
  cbn. destruct l1 as [|e1 [|e1' l1]]; cbn; [| reflexivity | reflexivity].
  destruct l2 as [|e2 [|e2' l2]]; reflexivity.
Qed.

(** C4, amended. [get_election] raises the inconsistency error when more
    than one row matches by id, or when none matches by id and more than
    one matches by ref; when exactly one row matches by id it returns that
    row whatever matches by ref; when none matches by id and exactly one
    matches by ref it returns that one; it raises NotFound when no row
    matches through either column. *)
Theorem get_election_spec db x :
  let out := (get_election db x).1 in
  ((1 < length (by_id db x))%nat ->
   out = inl (InconsistentDatabaseError "elections" Id x))
  /\ (forall e, by_id db x = [e] -> out = inr (Some e))
  /\ (by_id db x = [] -> (1 < length (by_ref db x))%nat ->
      out = inl (InconsistentDatabaseError "elections" Ref x))
  /\ (forall e, by_id db x = [] -> by_ref db x = [e] -> out = inr (Some e))
  /\ (by_id db x = [] -> by_ref db x = [] ->
      out = inl (NotFoundError "elections")).
Proof.
  cbn zeta. rewrite get_election_cases.
  destruct (by_id db x) as [|e1 [|e1' l1]];
    destruct (by_ref db x) as [|e2 [|e2' l2]];
    (split; [| split; [| split; [| split]]]); cbn [length]; intros;
    simplify_eq; try reflexivity; lia.
Qed.

(** C10. When exactly one row matches the identifier by id,
    [get_election] returns that row after two counts and one fetch on the
    id column, with no query on the ref column; whenever a query on the
    ref column is executed, no row matches by id. *)
Theorem get_election_id_first db x :
  (forall e, by_id db x = [e] ->
   get_election db x = (inr (Some e), [Count Id; Count Id; First Id]))
  /\ ((exists ev, ev ∈ (get_election db x).2 /\ column ev = Ref) ->
      by_id db x = []).
Proof.
  rewrite get_election_cases. split.
  - intros e ->. reflexivity.
  - intros (ev & Hin & Hcol).
    destruct (by_id db x) as [|e1 [|e1' l1]]; [reflexivity | |]; cbn in Hin;
      rewrite !elem_of_cons, elem_of_nil in Hin;
      destruct Hin as [->|Hin]; try discriminate;
      repeat (destruct Hin as [->|Hin]; try discriminate); destruct Hin.
Qed.

End GetElection.

(** *** Worked lookups *)

Record Row := { row_id : Z; row_ref : Z; row_name : string }.

Definition table : list Row :=
  [ {| row_id := 5; row_ref := 7; row_name := "A" |};
    {| row_id := 6; row_ref := 5; row_name := "B" |} ].

(** C4 as first stated fails: identifier 5 selects two different rows, one
    by id and one by ref, and [get_election] returns the id match instead
    of raising the inconsistency error. *)
Lemma get_election_prefers_id :
  by_id Row row_id row_ref table 5 =
    [ {| row_id := 5; row_ref := 7; row_name := "A" |} ]
  /\ by_ref Row row_id row_ref table 5 =
    [ {| row_id := 6; row_ref := 5; row_name := "B" |} ]
  /\ (get_election Row row_id row_ref table 5).1 =
     inr (Some {| row_id := 5; row_ref := 7; row_name := "A" |})
  /\ (get_election Row row_id row_ref table 5).1 <>
     inl (InconsistentDatabaseError "elections" Id 5).
Proof. vm_compute. repeat split. discriminate. Qed.

Lemma get_election_spec_witness :
  by_id Row row_id row_ref table 7 = []
  /\ by_ref Row row_id row_ref table 7 =
     [ {| row_id := 5; row_ref := 7; row_name := "A" |} ]
  /\ (get_election Row row_id row_ref table 7).1 =
     inr (Some {| row_id := 5; row_ref := 7; row_name := "A" |}).
Proof.
  split; [reflexivity |]. split; [reflexivity |].
  apply (get_election_spec Row row_id row_ref table 7); reflexivity.
Defined.

Lemma get_election_id_first_witness :
  by_id Row row_id row_ref table 5 =
    [ {| row_id := 5; row_ref := 7; row_name := "A" |} ]
  /\ get_election Row row_id row_ref table 5 =
     (inr (Some {| row_id := 5; row_ref := 7; row_name := "A" |}),
      [Count Id; Count Id; First Id]).
Proof.
  split; [reflexivity |].
  apply (get_election_id_first Row row_id row_ref table 5). reflexivity.
Defined.

(** *** What a successful lookup returns *)

Section LookupProperties.

Context {K : Type} `{EqDecision K}.
Variable Election : Type.
Variable id ref : Election -> K.

Local Abbreviation get_election := (get_election Election id ref).
Local Abbreviation by_id := (by_id Election id ref).
Local Abbreviation by_ref := (by_ref Election id ref).

Lemma by_id_elem db x e : e ∈ by_id db x <-> id e = x /\ e ∈ db.
Proof. unfold Crud.by_id, filter_by. cbn. by rewrite list_elem_of_filter. Qed.

Lemma by_ref_elem db x e : e ∈ by_ref db x <-> ref e = x /\ e ∈ db.
Proof. unfold Crud.by_ref, filter_by. cbn. by rewrite list_elem_of_filter. Qed.

(** X18. When [get_election] returns, it returns a row, never [None]: a row of
    the table whose id is the identifier, or, when no row has that id,
    whose ref is the identifier; and it is the only row selected through
    that column. *)
Theorem get_election_sound db x r :
  (get_election db x).1 = inr r ->
  exists e, r = Some e /\ e ∈ db
            /\ ((id e = x /\ by_id db x = [e])
                \/ (ref e = x /\ by_id db x = [] /\ by_ref db x = [e])).
Proof.
  rewrite get_election_cases.
  destruct (by_id db x) as [|e1 [|e1' l1]] eqn:Hid;
    [destruct (by_ref db x) as [|e2 [|e2' l2]] eqn:Href | |];
    cbn [fst]; intros Heq; try discriminate; injection Heq as <-.
  - exists e2. assert (He : e2 ∈ by_ref db x) by (rewrite Href; left).
    apply by_ref_elem in He as [? ?]. eauto 10.
  - exists e1. assert (He : e1 ∈ by_id db x) by (rewrite Hid; left).
    apply by_id_elem in He as [? ?]. eauto 10.
Qed.

(** X19. The outcome of [get_election], queries included, does not depend on
    the order of the rows in the table: [first()] is only ever called on a
    selection of exactly one row. *)
Theorem get_election_order_independent db db' x :
  db ≡ₚ db' -> get_election db x = get_election db' x.
Proof.
  intros Hperm. rewrite !get_election_cases.
  assert (Hid : by_id db x ≡ₚ by_id db' x).
  { unfold Crud.by_id, filter_by. cbn. by rewrite Hperm. }
  assert (Href : by_ref db x ≡ₚ by_ref db' x).
  { unfold Crud.by_ref, filter_by. cbn. by rewrite Hperm. }
  assert (Hcases : forall l l' : list Election, l ≡ₚ l' ->
    match l with
    | [] => l' = []
    | [e] => l' = [e]
    | _ :: _ :: _ => exists a b k, l' = a :: b :: k
    end).
  { intros l l' Hl. destruct l as [|e [|e' l]].
    - symmetry. by apply Permutation_nil_l.
    - symmetry. by apply Permutation_singleton_l.
    - apply Permutation_length in Hl. destruct l' as [|a [|b k]]; cbn in Hl;
        try lia. eauto. }
  pose proof (Hcases _ _ Hid) as Hi. pose proof (Hcases _ _ Href) as Hr.
  destruct (by_id db x) as [|e1 [|e1' l1]].
  - rewrite Hi. destruct (by_ref db x) as [|e2 [|e2' l2]].
    + by rewrite Hr.
    + by rewrite Hr.
    + destruct Hr as (a & b & k & ->). done.
  - by rewrite Hi.
  - destruct Hi as (a & b & k & ->). done.
Qed.

End LookupProperties.

Lemma get_election_sound_witness :
  (get_election Row row_id row_ref table 7).1 =
    inr (Some {| row_id := 5; row_ref := 7; row_name := "A" |})
  /\ exists e,
       Some {| row_id := 5; row_ref := 7; row_name := "A" |} = Some e
       /\ e ∈ table
       /\ ((row_id e = 7 /\ by_id Row row_id row_ref table 7 = [e])
           \/ (row_ref e = 7 /\ by_id Row row_id row_ref table 7 = []
               /\ by_ref Row row_id row_ref table 7 = [e])).
Proof.
  split; [reflexivity |].
  apply (get_election_sound Row row_id row_ref table 7). reflexivity.
Defined.

Lemma get_election_order_independent_witness :
  table ≡ₚ reverse table
  /\ get_election Row row_id row_ref table 5 =
     get_election Row row_id row_ref (reverse table) 5.
Proof.
  assert (Hp : table ≡ₚ reverse table) by (symmetry; apply reverse_Permutation).
  split; [exact Hp |].
  exact (get_election_order_independent Row row_id row_ref table
           (reverse table) 5 Hp).
Defined.

(** *** Creating an election: the session and its commits *)

Section CreateElection.

(** The schemas and models are declared outside these sources.  Taken as
    given: the identifier type, the fields of a candidate and of a grade,
    the fields of an election other than its candidates and grades, the
    election row with its [id] column, how a row is built from the key the
    database assigns, and which key it assigns. *)
Context {K : Type}.
Variables CandidateBase GradeBase ElectionParams Election : Type.
Variable id : Election -> K.
Variable make : K -> ElectionParams -> Election.
Variable next_id : list Election -> K.

(** [schemas.ElectionBase] *)
Record ElectionBase := {
  params : ElectionParams;
  eb_candidates : list CandidateBase;
  eb_grades : list GradeBase
}.

(** An object handed to [db.add]; the relational schemas add
    [election_id] to the base fields. *)
Inductive Obj :=
| ElectionObj (p : ElectionParams)
| CandidateObj (c : CandidateBase) (election_id : K)
| GradeObj (g : GradeBase) (election_id : K).

(** The session: the committed tables and the objects added since the
    last commit, in the order they were added. *)
Record Db := {
  elections : list Election;
  candidates : list (CandidateBase * K);
  grades : list (GradeBase * K);
  pending : list Obj
}.

Definition add (o : Obj) (db : Db) : Db :=
  {| elections := elections db; candidates := candidates db;
     grades := grades db; pending := pending db ++ [o] |}.

Definition flush (db : Db) (o : Obj) : Db :=
  match o with
  | ElectionObj p =>
      {| elections := elections db ++ [make (next_id (elections db)) p];
         candidates := candidates db; grades := grades db;
         pending := pending db |}
  | CandidateObj c k =>
      {| elections := elections db; candidates := candidates db ++ [(c, k)];
         grades := grades db; pending := pending db |}
  | GradeObj g k =>
      {| elections := elections db; candidates := candidates db;
         grades := grades db ++ [(g, k)]; pending := pending db |}
  end.

(** [db.commit()]: every pending object is inserted, in order. *)
Definition commit (db : Db) : Db :=
  foldl flush
        {| elections := elections db; candidates := candidates db;
           grades := grades db; pending := [] |}
        (pending db).

(** Both return the session and the object; only the session matters
    to the callers in this file. *)
Definition create_candidate (db : Db) (candidate : CandidateBase * K)
  (commit_now : bool) : Db :=
  let db := add (CandidateObj candidate.1 candidate.2) db in
  if commit_now then commit db else db.

Definition create_grade (db : Db) (grade : GradeBase * K) (commit_now : bool)
  : Db :=
  let db := add (GradeObj grade.1 grade.2) db in
  if commit_now then commit db else db.

(** The second component is the refreshed row: the object was the last
    one added, so its row is the last one inserted; an object that is only
    pending has no row yet. *)
Definition _create_election_without_candidates_or_grade (db : Db)
  (election : ElectionBase) (commit_now : bool) : Db * option Election :=
  let db := add (ElectionObj (params election)) db in
  if commit_now then let db := commit db in (db, last (elections db))
  else (db, None).

(** [schemas.ElectionCreate]: the election with its invites and admin
    token. *)
Record ElectionCreate := {
  created : Election;
  invites : list string;
  admin : string
}.

(** [None] stands for the failure of building the relational schemas
    from an election without key. *)
Definition create_election (db : Db) (election : ElectionBase)
  : Db * option ElectionCreate :=
  match _create_election_without_candidates_or_grade db election true with
  | (db, None) => (db, None)
  | (db, Some db_election) =>
      let db :=
        foldl (fun db candidate =>
                 create_candidate db (candidate, id db_election) false)
              db (eb_candidates election) in
      let db :=
        foldl (fun db grade => create_grade db (grade, id db_election) false)
              db (eb_grades election) in
      let db := commit db in
      (db, Some {| created := db_election; invites := []; admin := "" |})
  end.

Lemma commit_add o db : commit (add o db) = flush (commit db) o.
Proof. unfold commit, add. cbn. by rewrite foldl_snoc. Qed.

Lemma commit_pending db : pending (commit db) = [].
Proof.
  unfold commit.
  assert (H : forall l d, pending (foldl flush d l) = pending d).
  { induction l as [|o l IH]; intros d; [done |]. cbn. rewrite IH.
    by destruct o. }
  by rewrite H.
Qed.

Lemma commit_idempotent db : commit (commit db) = commit db.
Proof.
  unfold commit at 1. rewrite commit_pending. cbn.
  pose proof (commit_pending db) as Hp. destruct (commit db). cbn in *.
  by subst.
Qed.

Lemma commit_candidates db k cs :
  commit (foldl (fun db c => create_candidate db (c, k) false) db cs) =
  let d := commit db in
  {| elections := elections d;
     candidates := candidates d ++ ((fun c => (c, k)) <$> cs);
     grades := grades d; pending := pending d |}.
Proof.
  revert db. induction cs as [|c cs IH] using rev_ind; intros db.
  - cbn. rewrite app_nil_r. by destruct (commit db).
  - rewrite foldl_snoc. unfold create_candidate at 1. cbn [fst snd].
    rewrite commit_add, IH. cbn. by rewrite fmap_app, app_assoc.
Qed.

Lemma commit_grades db k gs :
  commit (foldl (fun db g => create_grade db (g, k) false) db gs) =
  let d := commit db in
  {| elections := elections d; candidates := candidates d;
     grades := grades d ++ ((fun g => (g, k)) <$> gs);
     pending := pending d |}.
Proof.
  revert db. induction gs as [|g gs IH] using rev_ind; intros db.
  - cbn. rewrite app_nil_r. by destruct (commit db).
  - rewrite foldl_snoc. unfold create_grade at 1. cbn [fst snd].
    rewrite commit_add, IH. cbn. by rewrite fmap_app, app_assoc.
Qed.

Lemma commit_clean db : pending db = [] -> commit db = db.
Proof. unfold commit. intros Hp. rewrite Hp. cbn. destruct db. cbn in *. by subst. Qed.

Lemma create_election_eq db election :
  let d := commit db in
  let row := make (next_id (elections d)) (params election) in
  create_election db election =
  ({| elections := elections d ++ [row];
      candidates :=
        candidates d ++ ((fun c => (c, id row)) <$> eb_candidates election);
      grades := grades d ++ ((fun g => (g, id row)) <$> eb_grades election);
      pending := [] |},
   Some {| created := row; invites := []; admin := "" |}).
Proof.
  cbn zeta. unfold create_election, _create_election_without_candidates_or_grade.
  rewrite commit_add. cbn [flush elections]. rewrite last_snoc.
  rewrite commit_grades, commit_candidates. cbn zeta.
  rewrite commit_clean by (cbn; apply commit_pending).
  cbn. by rewrite commit_pending.
Qed.

(** X14. [create_election] always returns: it commits whatever the session
    had pending, inserts one election row with the key the database
    assigns, then one row per candidate and per grade of the request, in
    order and each carrying that key, and leaves nothing pending; the
    returned election has no invites and an empty admin token. *)
Theorem create_election_spec db election :
  let d := commit db in
  let row := make (next_id (elections d)) (params election) in
  let db1 := (create_election db election).1 in
  (create_election db election).2 =
    Some {| created := row; invites := []; admin := "" |}
  /\ elections db1 = (elections d ++ [row])%list
  /\ candidates db1 =
     (candidates d ++ ((fun c => (c, id row)) <$> eb_candidates election))%list
  /\ grades db1 =
     (grades d ++ ((fun g => (g, id row)) <$> eb_grades election))%list
  /\ pending db1 = [].
Proof. cbn zeta. rewrite create_election_eq. cbn. done. Qed.

(** X15. A candidate or grade created with [commit=False] changes no table; it
    is inserted by the next commit, after everything that was pending
    before it.  With [commit=True] that commit happens at once, and it
    also inserts whatever else the session had pending. *)
Theorem create_row_deferred db (candidate : CandidateBase * K)
  (grade : GradeBase * K) :
  let dc := create_candidate db candidate false in
  let dg := create_grade db grade false in
  (elections dc = elections db /\ candidates dc = candidates db
   /\ grades dc = grades db)
  /\ (elections dg = elections db /\ candidates dg = candidates db
      /\ grades dg = grades db)
  /\ create_candidate db candidate true = commit dc
  /\ create_grade db grade true = commit dg
  /\ candidates (commit dc) = (candidates (commit db) ++ [candidate])%list
  /\ grades (commit dg) = (grades (commit db) ++ [grade])%list
  /\ pending (commit dc) = [] /\ pending (commit dg) = [].
Proof.
  cbn zeta. destruct candidate as [c kc], grade as [g kg].
  unfold create_candidate, create_grade. cbn [fst snd].
  rewrite !commit_pending, !commit_add. cbn. done.
Qed.

Section Lookup.

Context `{EqDecision K}.
Variable ref : Election -> K.

(** X16. An election that [create_election] has just created is found by
    [get_election] under its key, provided the row stored carries the
    assigned key and no earlier row has it. *)
Theorem create_then_get_election db election :
  let d := commit db in
  let k := next_id (elections d) in
  (forall k0 p, id (make k0 p) = k0) ->
  (forall e, e ∈ elections d -> id e <> k) ->
  (get_election Election id ref
     (elections (create_election db election).1) k).1 =
  inr (created <$> (create_election db election).2).
Proof.
  cbn zeta. intros Hmake Hfresh.
  rewrite get_election_cases, create_election_eq.
  unfold by_id, filter_by. cbn [fst snd elections].
  rewrite filter_app, filter_cons_True by apply Hmake.
  assert (Hnone : forall l : list Election,
            (forall e, e ∈ l -> id e <> next_id (elections (commit db))) ->
            filter (fun e => id e = next_id (elections (commit db))) l = []).
  { induction l as [|e l IH]; intros Hl; [done |].
    rewrite filter_cons_False by (apply Hl; left).
    apply IH. intros e0 He0. apply Hl. by right. }
  rewrite Hnone by exact Hfresh. done.
Qed.

End Lookup.

End CreateElection.

(** *** Worked creation *)

Definition stored (k : Z) (p : Z * string) : Row :=
  {| row_id := k; row_ref := p.1; row_name := p.2 |}.

Definition serial (rows : list Row) : Z :=
  1 + foldr (fun r m => Z.max (row_id r) m) 0 rows.

Definition committed : @Db Z string string (Z * string) Row :=
  {| elections := table; candidates := []; grades := []; pending := [] |}.

Definition request : ElectionBase string string (Z * string) :=
  {| params := (9, "C"); eb_candidates := ["Ada"; "Bob"];
     eb_grades := ["Good"; "Poor"] |}.

Lemma create_then_get_election_witness :
  serial table = 7
  /\ (get_election Row row_id row_ref
        (elections _ _ _ _
           (create_election _ _ _ _ row_id stored serial committed request).1)
        7).1 =
     inr (Some {| row_id := 7; row_ref := 9; row_name := "C" |}).
Proof.
  split; [reflexivity |].
  apply (create_then_get_election string string (Z * string) Row row_id stored
           serial row_ref committed request).
  - reflexivity.
  - intros e He. vm_compute in He.
    apply elem_of_cons in He as [->|He]; [done |].
    apply elem_of_cons in He as [->|He]; [done |]. by apply elem_of_nil in He.
Defined.

End Crud.

(** ** tests/acceptance/steps/tools_dbal.py *)

Module ToolsDbal.

Section Users.

(** Django's [User] model is outside these sources; [username] is its
    unique key, so the table is a finite map from usernames. *)
Variable User : Type.

Inductive Raised :=
| DoesNotExist
| ValueError (msg : string).

(** [User.objects.get(username=identifier)]: the object, never Python's
    [None]; it raises when there is no such row.  The result is the Python
    value, [None] included, so that the test on it can be written. *)
Definition objects_get (users : gmap string User) (identifier : string)
  : Raised + option User :=
  match users !! identifier with
  | Some user => inr (Some user)
  | None => inl DoesNotExist
  end.

Definition count_users (users : gmap string User) : nat := size users.

Definition find_user (users : gmap string User) (identifier : string)
  : Raised + User :=
  match objects_get users identifier with
  | inl e => inl e
  | inr (Some user) => inr user
  | inr None =>
      inl (ValueError ("No user found matching `" ++ identifier ++ "`."))
  end.

(** X17. [find_user] returns the user with that username when there is one; for
    an unknown username it raises the ORM's [DoesNotExist], and on no input
    does it raise its own [ValueError]. *)
Theorem find_user_never_value_error users identifier :
  find_user users identifier =
    match users !! identifier with
    | Some user => inr user
    | None => inl DoesNotExist
    end
  /\ forall msg, find_user users identifier <> inl (ValueError msg).
Proof.
  unfold find_user, objects_get.
  destruct (users !! identifier); split; done.
Qed.

End Users.

End ToolsDbal.
